(** * The UI controller of the "History of Windows" site (js/script.js)

    A shallow embedding of the client-side script: the browser objects the
    script talks to (DOM nodes, [localStorage], the console, the colour-scheme
    media query, registered event listeners) are fields of one explicit state,
    and every function of the script is a function on that state. *)

From Stdlib Require Import ZArith NArith Lia Bool.
From stdpp Require Import gmap strings list.

Local Open Scope string_scope.
Local Open Scope list_scope.
Local Open Scope nat_scope.

(** ** JavaScript strings

    Keys, theme names, class names and labels are kept as [string] (the
    script only compares them and stores them).  Text typed by the user is a
    sequence of UTF-16 code units, because [String.prototype.trim] is defined
    on code units. *)

Definition jsstring := list N.

(** White space and line terminators of ECMAScript, as stripped by [trim]. *)
Definition isWhiteSpace (c : N) : bool :=
  ((c =? 0x09) || (c =? 0x0A) || (c =? 0x0B) || (c =? 0x0C) || (c =? 0x0D)
   || (c =? 0x20) || (c =? 0xA0) || (c =? 0x1680)
   || ((0x2000 <=? c) && (c <=? 0x200A))
   || (c =? 0x2028) || (c =? 0x2029) || (c =? 0x202F) || (c =? 0x205F)
   || (c =? 0x3000) || (c =? 0xFEFF))%N.

Fixpoint trimStart (s : jsstring) : jsstring :=
  match s with
  | c :: r => if isWhiteSpace c then trimStart r else s
  | [] => []
  end.

Definition trimEnd (s : jsstring) : jsstring := rev (trimStart (rev s)).

Definition trim (s : jsstring) : jsstring := trimEnd (trimStart s).

(** Code units of an ASCII literal. *)
Definition js (s : string) : jsstring :=
  Ascii.N_of_ascii <$> String.list_ascii_of_string s.

(** ** Constants *)

Definition STORAGE_KEYS_THEME : string := "site-theme".

Module CONFIG.
Definition SCROLL_THRESHOLD : nat := 300.
Definition DEBOUNCE_DELAY : nat := 100.
Definition ANIMATION_DELAY : nat := 120.
End CONFIG.

(** ** Browser objects *)

(** A DOM element, with the parts the script reads or writes. *)
Record Element := mkElement {
  el_id : option string;             (* the id attribute *)
  el_classes : list string;          (* classList *)
  el_attrs : gmap string string;     (* attributes written by setAttribute *)
  el_textContent : string;
  el_value : jsstring;               (* value of a text input *)
  el_animationDelay : option nat     (* style.animationDelay, [Some n] is "<n>ms" *)
}.

(** [setAttribute], as it acts for the names the script passes (aria-label,
    aria-hidden, data-theme): the attribute is kept under the name as given
    and nothing else of the element changes. *)
Definition setAttribute (k v : string) (el : Element) : Element :=
  mkElement (el_id el) (el_classes el) (<[k:=v]> (el_attrs el))
            (el_textContent el) (el_value el) (el_animationDelay el).

Definition set_textContent (t : string) (el : Element) : Element :=
  mkElement (el_id el) (el_classes el) (el_attrs el) t (el_value el)
            (el_animationDelay el).

Definition set_value (v : jsstring) (el : Element) : Element :=
  mkElement (el_id el) (el_classes el) (el_attrs el) (el_textContent el) v
            (el_animationDelay el).

Definition set_animationDelay (d : nat) (el : Element) : Element :=
  mkElement (el_id el) (el_classes el) (el_attrs el) (el_textContent el)
            (el_value el) (Some d).

Definition classList_contains (c : string) (el : Element) : bool :=
  bool_decide (c ∈ el_classes el).

(** [classList.add]: a token already present is not added again. *)
Definition classList_add (c : string) (el : Element) : Element :=
  if classList_contains c el then el
  else mkElement (el_id el) (el_classes el ++ [c]) (el_attrs el)
                 (el_textContent el) (el_value el) (el_animationDelay el).

Definition classList_remove (c : string) (el : Element) : Element :=
  mkElement (el_id el) (filter (λ x, x ≠ c) (el_classes el)) (el_attrs el)
            (el_textContent el) (el_value el) (el_animationDelay el).

(** [localStorage]: the stored items, and whether access throws (storage
    disabled, quota exceeded). *)
Record Storage := mkStorage {
  items : gmap string string;
  getItem_throws : bool;
  setItem_throws : bool
}.

(** [None] is a thrown exception. *)
Definition localStorage_getItem (key : string) (st : Storage)
  : option (option string) :=
  if getItem_throws st then None else Some (items st !! key).

Definition localStorage_setItem (key value : string) (st : Storage)
  : option Storage :=
  if setItem_throws st then None
  else Some (mkStorage (<[key:=value]> (items st)) (getItem_throws st)
                       (setItem_throws st)).

(** Lines written to the console; the constructor names the message. *)
Inductive console_entry :=
| WarnScrollTargetMissing     (* warn: element to scroll to not found *)
| WarnStorageSetFailed        (* warn: could not save to localStorage *)
| WarnStorageGetFailed        (* warn: could not read from localStorage *)
| WarnAlreadyInitialized      (* warn: application already initialised *)
| LogInitialized              (* log: application initialised *)
| LogThemeToggled (theme : string)  (* log: theme switched, dark or light *)
| LogSearch (searchQuery : jsstring). (* log: search performed: "<query>" *)

(** Scrolling requested from the browser. *)
Inductive scroll_request :=
| WindowScrollTo (top : nat) (behavior : string)
| ScrollIntoView (node : nat) (behavior block : string).

(** Event targets, event types and the listeners (closures) the script
    registers on them. *)
Inductive target := Document | Window | ColorSchemeQuery | Node (n : nat).

Inductive event_type :=
| DOMContentLoaded | click | keydown | submit | scroll | change
| mouseenter | mouseleave.

Record Event := mkEvent {
  ev_type : event_type;
  ev_key : string;       (* e.key of a keyboard event *)
  ev_matches : bool      (* e.matches of a media-query change event *)
}.

Inductive listener :=
| OnDOMContentLoaded              (* the arrow function of init *)
| OnThemeClick                    (* () => this.toggleTheme() *)
| OnHomeClick                     (* () => this.scrollToTop() *)
| OnSearchClick                   (* () => smoothScrollToElement(this.searchSection) *)
| OnScroll (timer : nat)          (* debounce(() => this.toggleScrollButton(), 80) *)
| OnScrollTopClick                (* () => this.scrollToTop() *)
| OnScrollTopKeydown              (* Enter or space: preventDefault, scrollToTop *)
| OnSubmit                        (* (e) => this.handleSearch(e) *)
| OnSystemTheme                   (* (e) => this.handleSystemThemeChange(e) *)
| OnMouseenter (block : nat)
| OnMouseleave (block : nat).

Record Registration := mkRegistration {
  reg_target : target;
  reg_type : event_type;
  reg_listener : listener
}.

#[global] Instance target_eq_dec : EqDecision target.
Proof. solve_decision. Defined.
#[global] Instance event_type_eq_dec : EqDecision event_type.
Proof. solve_decision. Defined.
#[global] Instance listener_eq_dec : EqDecision listener.
Proof. solve_decision. Defined.

(** ** The state: the fields of the application object and the browser *)

Record State := mkState {
  (* this.* *)
  themeBtn : option nat;
  homeBtn : option nat;
  searchBtn : option nat;
  searchSection : option nat;
  scrollTopBtn : option nat;
  searchForm : option nat;
  currentTheme : string;
  isInitialized : bool;
  (* the page *)
  dom : list Element;               (* the elements, in document order *)
  documentElement : Element;
  q_searchForm : option nat;        (* answer to '.search-engine form' *)
  q_input_q : option nat;           (* answer to 'input[name="q"]' in the form *)
  (* the browser *)
  localStorage : Storage;
  prefersDark : bool;               (* matchMedia('(prefers-color-scheme: dark)').matches *)
  scrollY : nat;
  scrollRequests : list scroll_request;
  activeElement : option nat;       (* the focused element *)
  console : list console_entry;
  listeners : list Registration;
  timers : list nat                 (* pending timeouts of the debounced handlers *)
}.

Definition set_elements (tb hb sb ss st sf : option nat) (s : State) : State :=
  mkState tb hb sb ss st sf (currentTheme s) (isInitialized s)
          (dom s) (documentElement s) (q_searchForm s) (q_input_q s)
          (localStorage s) (prefersDark s) (scrollY s) (scrollRequests s)
          (activeElement s) (console s) (listeners s) (timers s).

Definition set_currentTheme (t : string) (s : State) : State :=
  mkState (themeBtn s) (homeBtn s) (searchBtn s) (searchSection s)
          (scrollTopBtn s) (searchForm s) t (isInitialized s)
          (dom s) (documentElement s) (q_searchForm s) (q_input_q s)
          (localStorage s) (prefersDark s) (scrollY s) (scrollRequests s)
          (activeElement s) (console s) (listeners s) (timers s).

Definition set_isInitialized (b : bool) (s : State) : State :=
  mkState (themeBtn s) (homeBtn s) (searchBtn s) (searchSection s)
          (scrollTopBtn s) (searchForm s) (currentTheme s) b
          (dom s) (documentElement s) (q_searchForm s) (q_input_q s)
          (localStorage s) (prefersDark s) (scrollY s) (scrollRequests s)
          (activeElement s) (console s) (listeners s) (timers s).

Definition set_dom (d : list Element) (s : State) : State :=
  mkState (themeBtn s) (homeBtn s) (searchBtn s) (searchSection s)
          (scrollTopBtn s) (searchForm s) (currentTheme s) (isInitialized s)
          d (documentElement s) (q_searchForm s) (q_input_q s)
          (localStorage s) (prefersDark s) (scrollY s) (scrollRequests s)
          (activeElement s) (console s) (listeners s) (timers s).

Definition set_documentElement (e : Element) (s : State) : State :=
  mkState (themeBtn s) (homeBtn s) (searchBtn s) (searchSection s)
          (scrollTopBtn s) (searchForm s) (currentTheme s) (isInitialized s)
          (dom s) e (q_searchForm s) (q_input_q s)
          (localStorage s) (prefersDark s) (scrollY s) (scrollRequests s)
          (activeElement s) (console s) (listeners s) (timers s).

Definition set_localStorage (st : Storage) (s : State) : State :=
  mkState (themeBtn s) (homeBtn s) (searchBtn s) (searchSection s)
          (scrollTopBtn s) (searchForm s) (currentTheme s) (isInitialized s)
          (dom s) (documentElement s) (q_searchForm s) (q_input_q s)
          st (prefersDark s) (scrollY s) (scrollRequests s)
          (activeElement s) (console s) (listeners s) (timers s).

Definition set_prefersDark (b : bool) (s : State) : State :=
  mkState (themeBtn s) (homeBtn s) (searchBtn s) (searchSection s)
          (scrollTopBtn s) (searchForm s) (currentTheme s) (isInitialized s)
          (dom s) (documentElement s) (q_searchForm s) (q_input_q s)
          (localStorage s) b (scrollY s) (scrollRequests s)
          (activeElement s) (console s) (listeners s) (timers s).

Definition set_scrollY (y : nat) (s : State) : State :=
  mkState (themeBtn s) (homeBtn s) (searchBtn s) (searchSection s)
          (scrollTopBtn s) (searchForm s) (currentTheme s) (isInitialized s)
          (dom s) (documentElement s) (q_searchForm s) (q_input_q s)
          (localStorage s) (prefersDark s) y (scrollRequests s)
          (activeElement s) (console s) (listeners s) (timers s).

Definition set_scrollRequests (r : list scroll_request) (s : State) : State :=
  mkState (themeBtn s) (homeBtn s) (searchBtn s) (searchSection s)
          (scrollTopBtn s) (searchForm s) (currentTheme s) (isInitialized s)
          (dom s) (documentElement s) (q_searchForm s) (q_input_q s)
          (localStorage s) (prefersDark s) (scrollY s) r
          (activeElement s) (console s) (listeners s) (timers s).

Definition set_activeElement (a : option nat) (s : State) : State :=
  mkState (themeBtn s) (homeBtn s) (searchBtn s) (searchSection s)
          (scrollTopBtn s) (searchForm s) (currentTheme s) (isInitialized s)
          (dom s) (documentElement s) (q_searchForm s) (q_input_q s)
          (localStorage s) (prefersDark s) (scrollY s) (scrollRequests s)
          a (console s) (listeners s) (timers s).

Definition set_console (c : list console_entry) (s : State) : State :=
  mkState (themeBtn s) (homeBtn s) (searchBtn s) (searchSection s)
          (scrollTopBtn s) (searchForm s) (currentTheme s) (isInitialized s)
          (dom s) (documentElement s) (q_searchForm s) (q_input_q s)
          (localStorage s) (prefersDark s) (scrollY s) (scrollRequests s)
          (activeElement s) c (listeners s) (timers s).

Definition set_listeners (l : list Registration) (s : State) : State :=
  mkState (themeBtn s) (homeBtn s) (searchBtn s) (searchSection s)
          (scrollTopBtn s) (searchForm s) (currentTheme s) (isInitialized s)
          (dom s) (documentElement s) (q_searchForm s) (q_input_q s)
          (localStorage s) (prefersDark s) (scrollY s) (scrollRequests s)
          (activeElement s) (console s) l (timers s).

Definition set_timers (t : list nat) (s : State) : State :=
  mkState (themeBtn s) (homeBtn s) (searchBtn s) (searchSection s)
          (scrollTopBtn s) (searchForm s) (currentTheme s) (isInitialized s)
          (dom s) (documentElement s) (q_searchForm s) (q_input_q s)
          (localStorage s) (prefersDark s) (scrollY s) (scrollRequests s)
          (activeElement s) (console s) (listeners s) t.

(** Browser primitives on the state. *)

Definition console_write (e : console_entry) (s : State) : State :=
  set_console (console s ++ [e]) s.

Definition update_node (n : nat) (f : Element → Element) (s : State) : State :=
  set_dom (alter f n (dom s)) s.

Definition addEventListener (t : target) (ty : event_type) (l : listener)
    (s : State) : State :=
  set_listeners (listeners s ++ [mkRegistration t ty l]) s.

(** [document.getElementById]: the first element, in document order, with
    that id. *)
Fixpoint find_index {A} (p : A → bool) (l : list A) : option nat :=
  match l with
  | [] => None
  | x :: r => if p x then Some 0 else S <$> find_index p r
  end.

Definition has_id (i : string) (el : Element) : bool :=
  bool_decide (el_id el = Some i).

Definition getElementById (i : string) (s : State) : option nat :=
  find_index (has_id i) (dom s).

(** [document.querySelectorAll] for a list of class selectors: the nodes
    having one of the classes, in document order. *)
Fixpoint indices_from {A} (p : A → bool) (i : nat) (l : list A) : list nat :=
  match l with
  | [] => []
  | x :: r => if p x then i :: indices_from p (S i) r else indices_from p (S i) r
  end.

Definition has_some_class (cs : list string) (el : Element) : bool :=
  existsb (λ c, classList_contains c el) cs.

Definition querySelectorAll_classes (cs : list string) (s : State) : list nat :=
  indices_from (has_some_class cs) 0 (dom s).

(** ** Utilities of the script *)

Definition smoothScrollToElement (element : option nat) (s : State) : State :=
  match element with
  | None => console_write WarnScrollTargetMissing s
  | Some el =>
      set_scrollRequests (scrollRequests s ++ [ScrollIntoView el "smooth" "center"]) s
  end.

Definition setAccessibilityAttributes (element : nat)
    (attributes : list (string * string)) (s : State) : State :=
  foldl (λ s kv, update_node element (setAttribute kv.1 kv.2) s) s attributes.

Definition safeSetStorage (key value : string) (s : State) : bool * State :=
  match localStorage_setItem key value (localStorage s) with
  | Some st => (true, set_localStorage st s)
  | None => (false, console_write WarnStorageSetFailed s)
  end.

Definition safeGetStorage (key : string) (s : State) : option string * State :=
  match localStorage_getItem key (localStorage s) with
  | Some v => (v, s)
  | None => (None, console_write WarnStorageGetFailed s)
  end.

(** ** Theme handling *)

Definition applyTheme (theme : string) (save : bool) (s : State) : State :=
  let s := set_currentTheme theme s in
  let isDark := bool_decide (theme = "dark") in
  let s := set_documentElement
             (setAttribute "data-theme" theme (documentElement s)) s in
  let s :=
    match themeBtn s with
    | Some b =>
        let s := update_node b
                   (set_textContent (if isDark then "☀️ Светлая" else "🌙 Тёмная")) s in
        update_node b
          (setAttribute "aria-label"
             (if isDark then "Переключить на светлую тему"
              else "Переключить на тёмную тему")) s
    | None => s
    end in
  if save then (safeSetStorage STORAGE_KEYS_THEME theme s).2 else s.

Definition determineInitialTheme (s : State) : State :=
  let '(storedTheme, s) := safeGetStorage STORAGE_KEYS_THEME s in
  let fromSystem :=
    (* const prefersDark = window.matchMedia(...).matches *)
    applyTheme (if prefersDark s then "dark" else "light") false s in
  match storedTheme with
  | Some t =>
      if bool_decide (t = "dark" ∨ t = "light") then applyTheme t false s
      else fromSystem
  | None => fromSystem
  end.

(** [!userChoice]: [null] and the empty string are falsy. *)
Definition falsy (v : option string) : bool :=
  match v with
  | None => true
  | Some x => bool_decide (x = "")
  end.

Definition handleSystemThemeChange (e : Event) (s : State) : State :=
  let '(userChoice, s) := safeGetStorage STORAGE_KEYS_THEME s in
  if falsy userChoice then
    applyTheme (if ev_matches e then "dark" else "light") false s
  else s.

Definition toggleTheme (s : State) : State :=
  let newTheme := if bool_decide (currentTheme s = "dark") then "light" else "dark" in
  let s := applyTheme newTheme true s in
  console_write (LogThemeToggled (if bool_decide (newTheme = "dark") then "dark" else "light")) s.

(** ** Intro animation, scrolling, hover effects, search *)

Definition animateIntro (s : State) : State :=
  let fadeElements :=
    querySelectorAll_classes
      ["content-block"; "main-title"; "green-gradient-heading"; "quad-block"] s in
  foldl (λ s ie,
           let s := update_node ie.2 (classList_add "fade-in") s in
           update_node ie.2 (set_animationDelay (ie.1 * CONFIG.ANIMATION_DELAY)) s)
        s (imap pair fadeElements).

(** [focus()] is taken to move the focus to the element. *)
Definition scrollToTop (s : State) : State :=
  let s := set_scrollRequests (scrollRequests s ++ [WindowScrollTo 0 "smooth"]) s in
  match scrollTopBtn s with
  | Some b => set_activeElement (Some b) s
  | None => s
  end.

Definition toggleScrollButton (s : State) : State :=
  match scrollTopBtn s with
  | None => s
  | Some b =>
      let isVisible := (CONFIG.SCROLL_THRESHOLD <? scrollY s)%nat in
      if isVisible then update_node b (classList_add "visible") s
      else update_node b (classList_remove "visible") s
  end.

Definition setupHoverEffects (s : State) : State :=
  let contentBlocks := querySelectorAll_classes ["content-block"; "quad-block"] s in
  foldl (λ s block,
           let s := addEventListener (Node block) mouseenter (OnMouseenter block) s in
           addEventListener (Node block) mouseleave (OnMouseleave block) s)
        s contentBlocks.

(** [None] is the TypeError of reading [querySelector] off a null
    [this.searchForm]. *)
Definition handleSearch (e : Event) (s : State) : option State :=
  match searchForm s with
  | None => None
  | Some _ =>
      let input := q_input_q s ≫= λ i, dom s !! i in
      match input with
      | Some el =>
          if bool_decide (trim (el_value el) ≠ []) then
            let searchQuery := trim (el_value el) in
            Some (console_write (LogSearch searchQuery) s)
          else Some s
      | None => Some s
      end
  end.

(** ** Initialisation *)

Definition setupElements (s : State) : State :=
  let s := set_elements (getElementById "themeToggle" s)
                        (getElementById "homeBtn" s)
                        (getElementById "scrollToSearch" s)
                        (getElementById "search" s)
                        (getElementById "scrollTopBtn" s)
                        (q_searchForm s) s in
  match scrollTopBtn s with
  | Some b =>
      setAccessibilityAttributes b
        [("aria-label", "Вернуться к началу страницы"); ("aria-hidden", "false")] s
  | None => s
  end.

(** Every call of [debounce] makes a closure with a timer of its own; the
    number of listeners registered so far names that timer. *)
Definition setupEventListeners (s : State) : State :=
  let s := match themeBtn s with
           | Some b => addEventListener (Node b) click OnThemeClick s
           | None => s
           end in
  let s := match homeBtn s with
           | Some b => addEventListener (Node b) click OnHomeClick s
           | None => s
           end in
  let s := match searchBtn s, searchSection s with
           | Some b, Some _ => addEventListener (Node b) click OnSearchClick s
           | _, _ => s
           end in
  let s := match scrollTopBtn s with
           | Some b =>
               let s := addEventListener Window scroll
                          (OnScroll (length (listeners s))) s in
               let s := addEventListener (Node b) click OnScrollTopClick s in
               addEventListener (Node b) keydown OnScrollTopKeydown s
           | None => s
           end in
  let s := match searchForm s with
           | Some f => addEventListener (Node f) submit OnSubmit s
           | None => s
           end in
  setupHoverEffects s.

Definition setupTheme (s : State) : State :=
  let s := determineInitialTheme s in
  addEventListener ColorSchemeQuery change OnSystemTheme s.

(** The body of the listener that [init] registers. *)
Definition initialize (s : State) : State :=
  let s := setupElements s in
  let s := setupEventListeners s in
  let s := setupTheme s in
  let s := animateIntro s in
  let s := set_isInitialized true s in
  console_write LogInitialized s.

Definition init (s : State) : State :=
  if isInitialized s then console_write WarnAlreadyInitialized s
  else addEventListener Document DOMContentLoaded OnDOMContentLoaded s.

(** [new WindowsHistoryApp()] in a browser state [page]. *)
Definition new_WindowsHistoryApp (page : State) : State :=
  let s := set_elements None None None None None None page in
  let s := set_currentTheme "light" s in
  let s := set_isInitialized false s in
  init s.

(** ** Event dispatch *)

(** Running one registered closure; the boolean tells whether it called
    [e.preventDefault()]. *)
Definition run_listener (l : listener) (e : Event) (s : State) : State * bool :=
  match l with
  | OnDOMContentLoaded => (initialize s, false)
  | OnThemeClick => (toggleTheme s, false)
  | OnHomeClick => (scrollToTop s, false)
  | OnSearchClick => (smoothScrollToElement (searchSection s) s, false)
  | OnScroll k =>
      (* clearTimeout(timeoutId); timeoutId = setTimeout(...) *)
      (set_timers (filter (λ x, x ≠ k) (timers s) ++ [k]) s, false)
  | OnScrollTopClick => (scrollToTop s, false)
  | OnScrollTopKeydown =>
      if bool_decide (ev_key e = "Enter" ∨ ev_key e = " ")
      then (scrollToTop s, true) else (s, false)
  | OnSubmit => (default s (handleSearch e s), false)
  | OnSystemTheme => (handleSystemThemeChange e s, false)
  | OnMouseenter block => (update_node block (classList_add "is-hovered") s, false)
  | OnMouseleave block => (update_node block (classList_remove "is-hovered") s, false)
  end.

Definition listens (t : target) (ty : event_type) (r : Registration) : bool :=
  bool_decide (reg_target r = t) && bool_decide (reg_type r = ty).

Definition run_listeners (ls : list listener) (e : Event) (s : State)
  : State * bool :=
  foldl (λ sp l, let r := run_listener l e sp.1 in (r.1, sp.2 || r.2)) (s, false) ls.

(** The listeners registered on one target for the event, when it is
    dispatched there, run in registration order; the boolean is
    [defaultPrevented].  The way of a bubbling event through the ancestors of
    its target is [dispatchBubbling] below. *)
Definition dispatchEvent (t : target) (e : Event) (s : State) : State * bool :=
  run_listeners (reg_listener <$> filter (λ r, listens t (ev_type e) r) (listeners s)) e s.

(** What can happen to the page. *)
Inductive action :=
| CallInit                            (* a call of app.init() *)
| Fire (t : target) (e : Event)       (* the browser dispatches an event *)
| SystemTheme (dark : bool)           (* the system colour scheme changes *)
| Scroll (y : nat)                    (* the user scrolls the window *)
| Timeout (k : nat)                   (* a pending debounce timer expires *)
| TypeText (n : nat) (v : jsstring)   (* the user edits a text input *)
| MoveFocus (n : option nat).         (* the user moves the focus *)

Definition step (a : action) (s : State) : State :=
  match a with
  | CallInit => init s
  | Fire t e => (dispatchEvent t e s).1
  | SystemTheme dark =>
      (dispatchEvent ColorSchemeQuery (mkEvent change "" dark)
                     (set_prefersDark dark s)).1
  | Scroll y => (dispatchEvent Window (mkEvent scroll "" false) (set_scrollY y s)).1
  | Timeout k =>
      if bool_decide (k ∈ timers s)
      then toggleScrollButton (set_timers (filter (λ x, x ≠ k) (timers s)) s)
      else s
  | TypeText n v => update_node n (set_value v) s
  | MoveFocus n => set_activeElement n s
  end.

Definition run (acts : list action) (s : State) : State :=
  foldl (λ s a, step a s) s acts.

(** Events without a key or a media-query payload. *)
Definition plain (ty : event_type) : Event := mkEvent ty "" false.

(** ** Observables of the theme *)

Definition dataTheme (s : State) : option string :=
  el_attrs (documentElement s) !! "data-theme".

Definition storedTheme (s : State) : option string :=
  items (localStorage s) !! STORAGE_KEYS_THEME.

Definition themeBtnLabel (s : State) : option string :=
  themeBtn s ≫= λ b, el_textContent <$> dom s !! b.

Definition labelFor (theme : string) : string :=
  if bool_decide (theme = "dark") then "☀️ Светлая" else "🌙 Тёмная".

Definition opposite (theme : string) : string :=
  if bool_decide (theme = "dark") then "light" else "dark".

Definition validTheme (theme : string) : Prop := theme = "light" ∨ theme = "dark".

Definition themeBtnAria (s : State) : option string :=
  themeBtn s ≫= λ b, dom s !! b ≫= λ el, el_attrs el !! "aria-label".

Definition ariaFor (theme : string) : string :=
  if bool_decide (theme = "dark") then "Переключить на светлую тему"
  else "Переключить на тёмную тему".

(** What the colour-scheme media query answers. *)
Definition systemTheme (s : State) : string :=
  if prefersDark s then "dark" else "light".

(** What a read of the theme key yields: nothing when the key is absent or
    the read throws. *)
Definition readStoredTheme (s : State) : option string :=
  if getItem_throws (localStorage s) then None else storedTheme s.




(** An element with an id and classes and nothing else. *)
Definition blank (i : option string) (cs : list string) : Element :=
  mkElement i cs ∅ "" [] None.

(** A page used in the examples: the theme button, the home button, the
    search button, the search section, the scroll-to-top button, the search
    form with its input, and some content blocks. *)
Definition examplePage : State :=
  mkState None None None None None None "" false
    [ blank (Some "themeToggle") [];
      blank (Some "homeBtn") [];
      blank (Some "scrollToSearch") [];
      blank None ["main-title"];
      blank None ["content-block"];
      blank (Some "search") ["search-engine"; "content-block"];
      blank None [];
      mkElement None [] ∅ "" (js "  windows 95 ") None;
      blank None ["quad-block"];
      blank (Some "scrollTopBtn") [] ]
    (blank None []) (Some 6) (Some 7)
    (mkStorage ∅ false false) false 0 [] None [] [] [].

(** The same page in a browser whose storage refuses every access. *)
Definition blockedStoragePage : State :=
  set_localStorage (mkStorage ∅ true true) examplePage.

(** The page once loaded: the script has run and DOMContentLoaded fired. *)
Definition loaded (page : State) : State :=
  step (Fire Document (plain DOMContentLoaded)) (new_WindowsHistoryApp page).

(** ** Notions used in the statements and proofs *)

(** The part of the state the theme logic reads and writes, apart from the
    theme button. *)
Definition themeCore (s : State) : string * Element * Storage * bool :=
  (currentTheme s, documentElement s, localStorage s, prefersDark s).

(** The registrations that [setupEventListeners] adds before the hover
    effects, given the elements found. *)
Definition wiring (s : State) : list Registration :=
  match themeBtn s with
  | Some b => [mkRegistration (Node b) click OnThemeClick] | None => []
  end ++
  match homeBtn s with
  | Some b => [mkRegistration (Node b) click OnHomeClick] | None => []
  end ++
  match searchBtn s, searchSection s with
  | Some b, Some _ => [mkRegistration (Node b) click OnSearchClick] | _, _ => []
  end ++
  match scrollTopBtn s with
  | Some b =>
      [mkRegistration Window scroll
         (OnScroll (length (listeners s)
                    + (if themeBtn s is Some _ then 1 else 0)
                    + (if homeBtn s is Some _ then 1 else 0)
                    + (if searchBtn s is Some _
                       then if searchSection s is Some _ then 1 else 0 else 0)));
       mkRegistration (Node b) click OnScrollTopClick;
       mkRegistration (Node b) keydown OnScrollTopKeydown]
  | None => []
  end ++
  match searchForm s with
  | Some f => [mkRegistration (Node f) submit OnSubmit] | None => []
  end.

(** The theme that initialisation chooses. *)
Definition initialTheme (s : State) : string :=
  match readStoredTheme s with
  | Some t => if bool_decide (validTheme t) then t else systemTheme s
  | None => systemTheme s
  end.

(** The example page with "dark" stored by an earlier visit. *)
Definition storedDarkPage : State :=
  set_localStorage (mkStorage {[ STORAGE_KEYS_THEME := "dark" ]} false false)
                   examplePage.

(** The theme that a colour-scheme change event announces. *)
Definition eventTheme (e : Event) : string :=
  if ev_matches e then "dark" else "light".

(** Storage [st] differs from [st0] at most by a theme written under the
    theme key. *)
Definition theme_writes_only (st0 st : Storage) : Prop :=
  getItem_throws st = getItem_throws st0
  ∧ setItem_throws st = setItem_throws st0
  ∧ (items st = items st0
     ∨ ∃ t, validTheme t ∧ items st = <[STORAGE_KEYS_THEME:=t]> (items st0)).

(** The element references of the application, the registered listeners and
    the parts of the page that the element lookups depend on. *)
Definition wiringView (s : State) :=
  (themeBtn s, homeBtn s, searchBtn s, searchSection s, scrollTopBtn s,
   searchForm s, listeners s, q_searchForm s, q_input_q s, el_id <$> dom s).

(** The registrations of the hover effects. *)
Definition hoverRegs (blocks : list nat) : list Registration :=
  blocks ≫= λ block,
    [mkRegistration (Node block) mouseenter (OnMouseenter block);
     mkRegistration (Node block) mouseleave (OnMouseleave block)].

(** The listeners that an event of type [ty] on target [t] runs. *)
Definition handlersOf (t : target) (ty : event_type) (rs : list Registration)
  : list listener :=
  reg_listener <$> filter (λ r, listens t ty r) rs.

Definition handlers (t : target) (ty : event_type) (s : State) : list listener :=
  handlersOf t ty (listeners s).

Definition systemThemeReg : Registration :=
  mkRegistration ColorSchemeQuery change OnSystemTheme.

(** A view with its listeners changed. *)
Definition withListeners (f : list Registration → list Registration)
    (v : option nat * option nat * option nat * option nat * option nat
         * option nat * list Registration * option nat * option nat
         * list (option string)) :=
  let '(tb, hb, sb, ss, st, sf, ls, qf, qi, ids) := v in
  (tb, hb, sb, ss, st, sf, f ls, qf, qi, ids).

Definition domContentLoadedReg : Registration :=
  mkRegistration Document DOMContentLoaded OnDOMContentLoaded.

(** The wiring and the initialisation flag are the same in both states. *)
Definition sameWiring (s s' : State) : Prop :=
  wiringView s' = wiringView s ∧ isInitialized s' = isInitialized s.

(** DOMContentLoaded fires once; these are the actions that can follow it. *)
Definition postLoad (a : action) : Prop :=
  match a with
  | Fire Document e => ev_type e ≠ DOMContentLoaded
  | _ => True
  end.

(** The example page without its search section. *)
Definition pageWithoutSearch : State :=
  update_node 5 (λ el, mkElement None (el_classes el) (el_attrs el)
                         (el_textContent el) (el_value el) (el_animationDelay el))
              examplePage.

(** What [animateIntro] does to the block with the given index. *)
Definition fadeIn (index : nat) (el : Element) : Element :=
  set_animationDelay (index * CONFIG.ANIMATION_DELAY) (classList_add "fade-in" el).

Definition fadeSelectors : list string :=
  ["content-block"; "main-title"; "green-gradient-heading"; "quad-block"].

Definition fadeAll (off : nat) (l : list nat) (d : list Element) : list Element :=
  foldl (λ d ie, alter (fadeIn ie.1) ie.2 d) d (imap (λ i x, (off + i, x)) l).

Definition delayOf (s : State) (n : nat) : option nat :=
  dom s !! n ≫= el_animationDelay.

(** An element after the attributes of the list have been set in order. *)
Definition setAttributes (attributes : list (string * string)) (el : Element)
  : Element :=
  foldl (λ el kv, setAttribute kv.1 kv.2 el) el attributes.

(** The selectors of the blocks that get hover effects. *)
Definition hoverSelectors : list string := ["content-block"; "quad-block"].

(** The in-memory theme is "light" or "dark" and the data-theme attribute of
    the root element shows it. *)
Definition themeMirrored (s : State) : Prop :=
  validTheme (currentTheme s) ∧ dataTheme s = Some (currentTheme s).

(** The text and the aria-label of the theme button, when the page has one,
    are those of the in-memory theme. *)
Definition themeLabelled (s : State) : Prop :=
  ∀ b, themeBtn s = Some b → b < length (dom s) →
    themeBtnLabel s = Some (labelFor (currentTheme s))
    ∧ themeBtnAria s = Some (ariaFor (currentTheme s)).

(** What the label of the theme button depends on. *)
Definition labelView (s : State) :=
  (currentTheme s, themeBtn s, el_textContent <$> dom s,
   (λ el, el_attrs el !! "aria-label") <$> dom s).

(** The storage can be read and written and holds the in-memory theme, which
    is "light" or "dark", under the theme key. *)
Definition themePersisted (s : State) : Prop :=
  getItem_throws (localStorage s) = false
  ∧ setItem_throws (localStorage s) = false
  ∧ validTheme (currentTheme s)
  ∧ storedTheme s = Some (currentTheme s).

(** The aria-hidden attribute of every element. *)
Definition hiddenView (s : State) : list (option string) :=
  (λ el, el_attrs el !! "aria-hidden") <$> dom s.

(** The characters of the attribute names below: lower-case letters, digits
    and the hyphen. *)
Definition isNameChar (c : Ascii.ascii) : bool :=
  let n := Ascii.N_of_ascii c in
  ((97 <=? n) && (n <=? 122) || (48 <=? n) && (n <=? 57) || (n =? 45))%N.

(** The attribute names for which [setAttribute] above is what an HTML
    document does: the aria-* and data-* names written with lower-case
    letters, digits and hyphens.  The document keeps such a name as given
    (other names are lower-cased, or refused when they are no valid names),
    and the attribute reflects on no other part of the element (unlike id,
    class, style or value).  The names the script uses, aria-label,
    aria-hidden and data-theme, are of this kind. *)
Definition plainAttributeName (k : string) : bool :=
  (String.prefix "aria-" k || String.prefix "data-" k)
  && forallb isNameChar (String.list_ascii_of_string k).

(** Node [n] is one of the elements that [setupElements] looks up and
    [setupEventListeners] puts click, keydown or submit listeners on. *)
Definition lookedUp (page : State) (n : nat) : Prop :=
  getElementById "themeToggle" page = Some n
  ∨ getElementById "homeBtn" page = Some n
  ∨ getElementById "scrollToSearch" page = Some n
  ∨ getElementById "scrollTopBtn" page = Some n
  ∨ q_searchForm page = Some n.

(** The propagation of an event that bubbles (click, keydown, submit):
    [dispatchEvent] above runs the listeners of one target; the browser runs
    those of the node the event occurs on, then those of each of its
    ancestors from the innermost outwards, then those of the document and of
    the window.  [path] is that node followed by its ancestors.  The script
    registers no capturing listener and never stops the propagation; the
    boolean tells whether some listener on the way prevented the default
    action. *)
Definition dispatchBubbling (path : list nat) (e : Event) (s : State)
  : State * bool :=
  foldl (λ sp t, let r := dispatchEvent t e sp.1 in (r.1, sp.2 || r.2))
        (s, false) ((Node <$> path) ++ [Document; Window]).

(** * Properties *)

(** ** Effect of [applyTheme] *)

Section ApplyTheme.
Variables (theme : string) (save : bool) (s : State).

Ltac cases :=
  unfold applyTheme, safeSetStorage, localStorage_setItem; simpl;
  destruct save, (themeBtn s) eqn:?; simpl;
  try destruct (setItem_throws (localStorage s)) eqn:?; simpl.

Lemma applyTheme_currentTheme : currentTheme (applyTheme theme save s) = theme.
Proof. cases; reflexivity. Qed.

Lemma applyTheme_dataTheme : dataTheme (applyTheme theme save s) = Some theme.
Proof. unfold dataTheme. cases; apply lookup_insert_eq. Qed.

Lemma applyTheme_themeBtn : themeBtn (applyTheme theme save s) = themeBtn s.
Proof. cases; congruence. Qed.

Lemma applyTheme_dom_length : length (dom (applyTheme theme save s)) = length (dom s).
Proof. cases; rewrite ?length_alter; reflexivity. Qed.

Lemma applyTheme_label b :
  themeBtn s = Some b → b < length (dom s) →
  themeBtnLabel (applyTheme theme save s) = Some (labelFor theme)
  ∧ themeBtnAria (applyTheme theme save s) = Some (ariaFor theme).
Proof.
  intros Hb Hlt. apply lookup_lt_is_Some_2 in Hlt as [el Hel].
  unfold themeBtnLabel, themeBtnAria, labelFor, ariaFor.
  unfold applyTheme, safeSetStorage, localStorage_setItem; simpl.
  rewrite Hb; simpl.
  destruct save; simpl; try destruct (setItem_throws (localStorage s)); simpl;
    rewrite Hb; simpl; rewrite !list_lookup_alter_eq, Hel; simpl;
    (split; [reflexivity | apply lookup_insert_eq]).
Qed.

Lemma applyTheme_nosave_storage :
  save = false → localStorage (applyTheme theme save s) = localStorage s.
Proof. intros Hs. cases; congruence. Qed.

End ApplyTheme.

Arguments applyTheme : simpl never.

(** ** What the other functions leave alone *)

Lemma foldl_keeps {A B} (obs : State → B) (f : State → A → State) l s :
  (∀ s a, obs (f s a) = obs s) → obs (foldl f s l) = obs s.
Proof.
  intros Hf. revert s. induction l as [|a l IH]; intros s; simpl; [done|].
  rewrite IH. apply Hf.
Qed.

Lemma themeCore_console_write c s : themeCore (console_write c s) = themeCore s.
Proof. reflexivity. Qed.

Lemma themeCore_set_isInitialized b s : themeCore (set_isInitialized b s) = themeCore s.
Proof. reflexivity. Qed.

Lemma themeCore_addEventListener t ty l s :
  themeCore (addEventListener t ty l s) = themeCore s.
Proof. reflexivity. Qed.

Lemma themeCore_setAccessibilityAttributes n attrs s :
  themeCore (setAccessibilityAttributes n attrs s) = themeCore s.
Proof. unfold setAccessibilityAttributes. by apply foldl_keeps. Qed.

Lemma themeCore_setupElements s : themeCore (setupElements s) = themeCore s.
Proof.
  unfold setupElements. cbn [scrollTopBtn set_elements].
  destruct (getElementById "scrollTopBtn" s); [|done].
  by rewrite themeCore_setAccessibilityAttributes.
Qed.

Lemma setupEventListeners_wiring s :
  setupEventListeners s
  = setupHoverEffects (set_listeners (listeners s ++ wiring s) s).
Proof.
  unfold setupEventListeners, wiring, addEventListener.
  destruct s as [tb hb sb ss st sf ? ? ? ? ? ? ? ? ? ? ? ? ls ?]; simpl.
  destruct tb, hb, sb, ss, st, sf; simpl;
    rewrite ?length_app, <- ?app_assoc, ?app_nil_r; simpl;
    rewrite ?Nat.add_0_r; try reflexivity.
Qed.

Lemma themeCore_setupHoverEffects s : themeCore (setupHoverEffects s) = themeCore s.
Proof. unfold setupHoverEffects. by apply foldl_keeps. Qed.

Lemma themeCore_setupEventListeners s :
  themeCore (setupEventListeners s) = themeCore s.
Proof.
  rewrite setupEventListeners_wiring, themeCore_setupHoverEffects. done.
Qed.

Lemma themeCore_animateIntro s : themeCore (animateIntro s) = themeCore s.
Proof. unfold animateIntro. by apply foldl_keeps. Qed.

Lemma themeCore_scrollToTop s : themeCore (scrollToTop s) = themeCore s.
Proof. unfold scrollToTop. simpl. by destruct (scrollTopBtn s). Qed.

Lemma themeCore_toggleScrollButton s : themeCore (toggleScrollButton s) = themeCore s.
Proof.
  unfold toggleScrollButton. destruct (scrollTopBtn s); [|done].
  by destruct (_ <? _)%nat.
Qed.

Lemma themeCore_smoothScrollToElement el s :
  themeCore (smoothScrollToElement el s) = themeCore s.
Proof. by destruct el. Qed.

Lemma themeCore_handleSearch e s s' : handleSearch e s = Some s' → themeCore s' = themeCore s.
Proof.
  unfold handleSearch. intros H.
  destruct (searchForm s); [|done].
  destruct (q_input_q s ≫= _); [|by simplify_eq].
  case_bool_decide; by simplify_eq.
Qed.

Lemma themeCore_init s : themeCore (init s) = themeCore s.
Proof. unfold init. by destruct (isInitialized s). Qed.

(** Reading the theme key: the value, or nothing when the read throws. *)
Lemma safeGetStorage_theme s :
  (safeGetStorage STORAGE_KEYS_THEME s).1 = readStoredTheme s
  ∧ themeCore (safeGetStorage STORAGE_KEYS_THEME s).2 = themeCore s
  ∧ themeBtn (safeGetStorage STORAGE_KEYS_THEME s).2 = themeBtn s
  ∧ dom (safeGetStorage STORAGE_KEYS_THEME s).2 = dom s.
Proof.
  unfold safeGetStorage, localStorage_getItem, readStoredTheme, storedTheme.
  by destruct (getItem_throws (localStorage s)).
Qed.

Lemma themeCore_storage s s' : themeCore s' = themeCore s → localStorage s' = localStorage s.
Proof. unfold themeCore. congruence. Qed.

Lemma themeCore_read s s' : themeCore s' = themeCore s → readStoredTheme s' = readStoredTheme s.
Proof. unfold themeCore, readStoredTheme, storedTheme. intros [= _ _ -> _]. done. Qed.

Lemma themeCore_system s s' : themeCore s' = themeCore s → systemTheme s' = systemTheme s.
Proof. unfold themeCore, systemTheme. intros [= _ _ _ ->]. done. Qed.

(** ** Initial theme *)

Lemma determineInitialTheme_unfold s :
  determineInitialTheme s =
  let s1 := (safeGetStorage STORAGE_KEYS_THEME s).2 in
  match readStoredTheme s with
  | Some t => if bool_decide (validTheme t) then applyTheme t false s1
              else applyTheme (systemTheme s) false s1
  | None => applyTheme (systemTheme s) false s1
  end.
Proof.
  unfold determineInitialTheme.
  destruct (safeGetStorage_theme s) as (Hv & Hc & _).
  destruct (safeGetStorage STORAGE_KEYS_THEME s) as [v s1].
  cbn [fst snd] in *. subst v. cbv zeta.
  assert (Hsys : (if prefersDark s1 then "dark" else "light") = systemTheme s)
    by (apply (themeCore_system s s1 Hc)).
  rewrite Hsys. unfold validTheme.
  destruct (readStoredTheme s) as [t|]; [|done].
  by rewrite (bool_decide_ext (t = "dark" ∨ t = "light") (t = "light" ∨ t = "dark"))
    by tauto.
Qed.

Lemma determineInitialTheme_effect s :
  currentTheme (determineInitialTheme s) = initialTheme s
  ∧ dataTheme (determineInitialTheme s) = Some (initialTheme s)
  ∧ localStorage (determineInitialTheme s) = localStorage s.
Proof.
  rewrite determineInitialTheme_unfold. unfold initialTheme. cbv zeta.
  destruct (safeGetStorage_theme s) as (_ & Hc & _).
  apply themeCore_storage in Hc.
  destruct (readStoredTheme s) as [t|]; [case_bool_decide|];
    rewrite applyTheme_currentTheme, applyTheme_dataTheme,
      applyTheme_nosave_storage by done; done.
Qed.

Lemma themeCore_current s s' : themeCore s' = themeCore s → currentTheme s' = currentTheme s.
Proof. intros H. exact (f_equal (λ c, c.1.1.1) H). Qed.

Lemma themeCore_dataTheme s s' : themeCore s' = themeCore s → dataTheme s' = dataTheme s.
Proof.
  intros H. unfold dataTheme.
  by rewrite (f_equal (λ c, c.1.1.2) H : documentElement s' = documentElement s).
Qed.

Lemma themeCore_initialize s :
  themeCore (initialize s)
  = themeCore (determineInitialTheme (setupEventListeners (setupElements s))).
Proof.
  unfold initialize, setupTheme. cbv zeta.
  by rewrite themeCore_console_write, themeCore_set_isInitialized,
    themeCore_animateIntro, themeCore_addEventListener.
Qed.

Lemma initialTheme_core s s' : themeCore s' = themeCore s → initialTheme s' = initialTheme s.
Proof.
  intros H. unfold initialTheme.
  by rewrite (themeCore_read _ _ H), (themeCore_system _ _ H).
Qed.

Lemma initialize_effect s :
  currentTheme (initialize s) = initialTheme s
  ∧ dataTheme (initialize s) = Some (initialTheme s)
  ∧ localStorage (initialize s) = localStorage s.
Proof.
  pose proof (themeCore_initialize s) as Hc.
  assert (Hc1 : themeCore (setupEventListeners (setupElements s)) = themeCore s)
    by (by rewrite themeCore_setupEventListeners, themeCore_setupElements).
  destruct (determineInitialTheme_effect (setupEventListeners (setupElements s)))
    as (Ht & Hd & Hs).
  rewrite (themeCore_current _ _ Hc), (themeCore_dataTheme _ _ Hc),
    (themeCore_storage _ _ Hc), Ht, Hd, Hs, (initialTheme_core _ _ Hc1).
  split_and!; [done..|]. by apply themeCore_storage.
Qed.

(** C1: at page initialisation a stored theme "light" or "dark" is applied as
    it is; with the key absent, the read failing or another value stored,
    the theme of the system colour-scheme preference is applied; storage is
    not written in any case.  Stated for [determineInitialTheme] and for the
    whole handler of DOMContentLoaded. *)
Theorem determineInitialTheme_applies (s : State) :
  (∀ t, validTheme t → readStoredTheme s = Some t →
     currentTheme (determineInitialTheme s) = t
     ∧ dataTheme (determineInitialTheme s) = Some t
     ∧ currentTheme (initialize s) = t
     ∧ dataTheme (initialize s) = Some t)
  ∧ ((∀ t, validTheme t → readStoredTheme s ≠ Some t) →
     currentTheme (determineInitialTheme s) = systemTheme s
     ∧ dataTheme (determineInitialTheme s) = Some (systemTheme s)
     ∧ currentTheme (initialize s) = systemTheme s
     ∧ dataTheme (initialize s) = Some (systemTheme s))
  ∧ localStorage (determineInitialTheme s) = localStorage s
  ∧ localStorage (initialize s) = localStorage s.
Proof.
  destruct (determineInitialTheme_effect s) as (Ht & Hd & Hs).
  destruct (initialize_effect s) as (Ht' & Hd' & Hs').
  rewrite Ht, Hd, Ht', Hd'. split_and!; [| |done..].
  - intros t Hv Hr. unfold initialTheme. rewrite Hr.
    by rewrite bool_decide_eq_true_2.
  - intros Hno. unfold initialTheme.
    destruct (readStoredTheme s) as [t|]; [|done].
    case_bool_decide; [|done]. by destruct (Hno t).
Qed.

Lemma determineInitialTheme_applies_witness :
  currentTheme (determineInitialTheme storedDarkPage) = "dark"
  ∧ currentTheme (determineInitialTheme examplePage) = "light".
Proof.
  split.
  - apply (proj1 (determineInitialTheme_applies storedDarkPage) "dark").
    + right; reflexivity.
    + vm_compute; reflexivity.
  - apply (proj1 (proj2 (determineInitialTheme_applies examplePage))).
    intros t _. vm_compute. discriminate.
Defined.

(** ** Toggling *)

Lemma applyTheme_storage theme s :
  localStorage (applyTheme theme true s)
  = if setItem_throws (localStorage s) then localStorage s
    else mkStorage (<[STORAGE_KEYS_THEME:=theme]> (items (localStorage s)))
                   (getItem_throws (localStorage s)) false.
Proof.
  unfold applyTheme, safeSetStorage, localStorage_setItem; simpl.
  destruct (themeBtn s); simpl;
    destruct (setItem_throws (localStorage s)) eqn:E; simpl; rewrite ?E; done.
Qed.

Lemma applyTheme_console theme s :
  console (applyTheme theme true s)
  = console s ++ (if setItem_throws (localStorage s) then [WarnStorageSetFailed] else []).
Proof.
  unfold applyTheme, safeSetStorage, localStorage_setItem; simpl.
  destruct (themeBtn s); simpl;
    destruct (setItem_throws (localStorage s)); simpl; by rewrite ?app_nil_r.
Qed.

Lemma opposite_valid t : validTheme (opposite t).
Proof. unfold opposite, validTheme. case_bool_decide; auto. Qed.


Lemma toggleTheme_unfold s :
  toggleTheme s
  = console_write (LogThemeToggled (opposite (currentTheme s)))
      (applyTheme (opposite (currentTheme s)) true s).
Proof.
  unfold toggleTheme, opposite.
  destruct (bool_decide (currentTheme s = "dark")); reflexivity.
Qed.

Section Toggle.
Variable s : State.
Let t' := opposite (currentTheme s).

Lemma toggleTheme_currentTheme : currentTheme (toggleTheme s) = t'.
Proof. rewrite toggleTheme_unfold. simpl. apply applyTheme_currentTheme. Qed.

Lemma toggleTheme_dataTheme : dataTheme (toggleTheme s) = Some t'.
Proof.
  rewrite toggleTheme_unfold. unfold dataTheme. simpl.
  apply applyTheme_dataTheme.
Qed.




Lemma toggleTheme_storage :
  localStorage (toggleTheme s)
  = if setItem_throws (localStorage s) then localStorage s
    else mkStorage (<[STORAGE_KEYS_THEME:=t']> (items (localStorage s)))
                   (getItem_throws (localStorage s)) false.
Proof. rewrite toggleTheme_unfold. simpl. apply applyTheme_storage. Qed.

Lemma toggleTheme_stored :
  storedTheme (toggleTheme s)
  = if setItem_throws (localStorage s) then storedTheme s else Some t'.
Proof.
  unfold storedTheme. rewrite toggleTheme_storage.
  destruct (setItem_throws (localStorage s)); simpl; [done|].
  apply lookup_insert_eq.
Qed.

Lemma toggleTheme_console :
  console (toggleTheme s)
  = console s
    ++ (if setItem_throws (localStorage s) then [WarnStorageSetFailed] else [])
    ++ [LogThemeToggled t'].
Proof.
  rewrite toggleTheme_unfold. simpl. rewrite applyTheme_console.
  by rewrite <- app_assoc.
Qed.
End Toggle.

(** C2, as amended: toggling from theme [t] sets the in-memory theme and the
    data-theme attribute of the root element to the opposite of [t]; that
    value is stored under the theme key when [localStorage.setItem] does not
    throw; when it throws the failure is caught and logged and storage is
    left as it was. *)
Theorem toggleTheme_flips (s : State) (t : string) :
  validTheme t → currentTheme s = t →
  currentTheme (toggleTheme s) = opposite t
  ∧ dataTheme (toggleTheme s) = Some (opposite t)
  ∧ opposite t ≠ t ∧ validTheme (opposite t)
  ∧ (setItem_throws (localStorage s) = false →
     storedTheme (toggleTheme s) = Some (opposite t))
  ∧ (setItem_throws (localStorage s) = true →
     localStorage (toggleTheme s) = localStorage s
     ∧ WarnStorageSetFailed ∈ console (toggleTheme s)).
Proof.
  intros Hv <-.
  rewrite toggleTheme_currentTheme, toggleTheme_dataTheme, toggleTheme_stored,
    toggleTheme_storage, toggleTheme_console.
  split_and!; [done | done | | apply opposite_valid | | ].
  - by destruct Hv as [-> | ->].
  - intros H. by rewrite H.
  - intros H. rewrite H. split; [done | set_solver].
Qed.

Lemma toggleTheme_flips_witness :
  currentTheme (set_currentTheme "light" examplePage) = "light"
  ∧ storedTheme (toggleTheme (set_currentTheme "light" examplePage)) = Some "dark".
Proof.
  pose proof (toggleTheme_flips (set_currentTheme "light" examplePage) "light"
                (or_introl eq_refl) eq_refl) as (_ & _ & _ & _ & Hs & _).
  split; [reflexivity | apply Hs; reflexivity].
Defined.

(** C2, as stated, fails in a browser whose storage refuses writes: the theme
    is flipped to dark, yet nothing is stored. *)
Lemma toggleTheme_not_persisted_when_storage_blocked :
  currentTheme (loaded blockedStoragePage) = "light"
  ∧ currentTheme (toggleTheme (loaded blockedStoragePage)) = "dark"
  ∧ dataTheme (toggleTheme (loaded blockedStoragePage)) = Some "dark"
  ∧ storedTheme (toggleTheme (loaded blockedStoragePage)) = None.
Proof. vm_compute. done. Qed.






Arguments initialize : simpl never.
Arguments init : simpl never.
Arguments toggleTheme : simpl never.
Arguments determineInitialTheme : simpl never.
Arguments handleSystemThemeChange : simpl never.
Arguments handleSearch : simpl never.
Arguments scrollToTop : simpl never.
Arguments smoothScrollToElement : simpl never.
Arguments toggleScrollButton : simpl never.
Arguments setupElements : simpl never.
Arguments setupEventListeners : simpl never.
Arguments setupHoverEffects : simpl never.
Arguments setupTheme : simpl never.
Arguments animateIntro : simpl never.

(** ** System colour-scheme changes *)

Lemma handleSystemThemeChange_unfold e s :
  handleSystemThemeChange e s
  = if falsy (readStoredTheme s)
    then applyTheme (eventTheme e) false (safeGetStorage STORAGE_KEYS_THEME s).2
    else s.
Proof.
  unfold handleSystemThemeChange, safeGetStorage, localStorage_getItem,
    readStoredTheme, storedTheme, eventTheme.
  destruct (getItem_throws (localStorage s)); simpl; [done|].
  by destruct (falsy _).
Qed.

Lemma handleSystemThemeChange_storage e s :
  localStorage (handleSystemThemeChange e s) = localStorage s.
Proof.
  rewrite handleSystemThemeChange_unfold.
  destruct (falsy _); [|done].
  rewrite applyTheme_nosave_storage by done.
  apply themeCore_storage, safeGetStorage_theme.
Qed.

Lemma validTheme_truthy t : validTheme t → falsy (Some t) = false.
Proof. by intros [-> | ->]. Qed.

(** ** Storage along an execution *)

Lemma theme_writes_only_refl st : theme_writes_only st st.
Proof. unfold theme_writes_only. auto. Qed.

Lemma theme_writes_only_applyTheme st0 t save s :
  validTheme t →
  theme_writes_only st0 (localStorage s) →
  theme_writes_only st0 (localStorage (applyTheme t save s)).
Proof.
  intros Hv H. destruct save.
  - rewrite applyTheme_storage.
    destruct (setItem_throws (localStorage s)) eqn:E; [done|].
    destruct H as (Hg & Hs & Hi).
    split_and!; simpl; [done | congruence |].
    right. exists t. split; [done|].
    destruct Hi as [-> | (t1 & _ & ->)]; [done|].
    apply insert_insert_eq.
  - by rewrite applyTheme_nosave_storage.
Qed.

Section StorageInvariant.
Variable st0 : Storage.
Abbreviation ok s := (theme_writes_only st0 (localStorage s)).

Lemma storage_ok_core s s' : themeCore s' = themeCore s → ok s → ok s'.
Proof. intros H. by rewrite (themeCore_storage _ _ H). Qed.

Lemma storage_ok_toggleTheme s : ok s → ok (toggleTheme s).
Proof.
  intros H. rewrite toggleTheme_unfold. simpl.
  apply theme_writes_only_applyTheme; [apply opposite_valid | done].
Qed.

Lemma storage_ok_run_listener l e s : ok s → ok (run_listener l e s).1.
Proof.
  intros H. destruct l; cbn [run_listener fst]; try done.
  - by rewrite (proj2 (proj2 (initialize_effect s))).
  - by apply storage_ok_toggleTheme.
  - eapply storage_ok_core; [by apply themeCore_scrollToTop | done].
  - eapply storage_ok_core; [by apply themeCore_smoothScrollToElement | done].
  - eapply storage_ok_core; [by apply themeCore_scrollToTop | done].
  - case_bool_decide; [|done].
    eapply storage_ok_core; [by apply themeCore_scrollToTop | done].
  - destruct (handleSearch e s) as [s'|] eqn:E; cbn [default]; [|done].
    eapply storage_ok_core; [by apply (themeCore_handleSearch e s) | done].
  - by rewrite handleSystemThemeChange_storage.
Qed.

Lemma storage_ok_run_listeners ls e s : ok s → ok (run_listeners ls e s).1.
Proof.
  unfold run_listeners. generalize false. revert s.
  induction ls as [|l ls IH]; intros s p H; cbn [foldl fst]; [done|].
  apply IH. by apply storage_ok_run_listener.
Qed.

Lemma storage_ok_step a s : ok s → ok (step a s).
Proof.
  intros H. destruct a; cbn [step].
  - eapply storage_ok_core; [by apply themeCore_init | done].
  - by apply storage_ok_run_listeners.
  - by apply storage_ok_run_listeners.
  - by apply storage_ok_run_listeners.
  - case_bool_decide; [|done].
    eapply storage_ok_core; [apply themeCore_toggleScrollButton | done].
  - done.
  - done.
Qed.

Lemma storage_ok_run acts s : ok s → ok (run acts s).
Proof.
  revert s. induction acts as [|a acts IH]; intros s H; cbn [run foldl]; [done|].
  apply IH. by apply storage_ok_step.
Qed.
End StorageInvariant.

Lemma new_WindowsHistoryApp_storage page :
  localStorage (new_WindowsHistoryApp page) = localStorage page.
Proof.
  unfold new_WindowsHistoryApp. cbv zeta.
  match goal with |- localStorage (init ?s) = _ =>
    by rewrite (themeCore_storage s (init s) (themeCore_init s)) end.
Qed.

Lemma handleSystemThemeChange_effect e s :
  (falsy (readStoredTheme s) = false → handleSystemThemeChange e s = s)
  ∧ (falsy (readStoredTheme s) = true →
     currentTheme (handleSystemThemeChange e s) = eventTheme e
     ∧ dataTheme (handleSystemThemeChange e s) = Some (eventTheme e)
     ∧ localStorage (handleSystemThemeChange e s) = localStorage s).
Proof.
  split; intros H.
  - by rewrite handleSystemThemeChange_unfold, H.
  - rewrite handleSystemThemeChange_storage.
    rewrite handleSystemThemeChange_unfold, H.
    by rewrite applyTheme_currentTheme, applyTheme_dataTheme.
Qed.

(** After a theme has been written, a working storage holds a theme under the
    theme key for the rest of the execution. *)
Lemma stored_after_toggle s acts :
  getItem_throws (localStorage s) = false →
  setItem_throws (localStorage s) = false →
  ∃ t, validTheme t ∧ readStoredTheme (run acts (toggleTheme s)) = Some t.
Proof.
  intros Hg Hs.
  pose proof (storage_ok_run (localStorage (toggleTheme s)) acts (toggleTheme s)
                (theme_writes_only_refl _)) as (Hg' & _ & Hi).
  unfold readStoredTheme, storedTheme. rewrite Hg'.
  rewrite toggleTheme_storage, Hs in *. cbn [getItem_throws items] in *.
  rewrite Hg.
  destruct Hi as [-> | (t & Hv & ->)].
  - exists (opposite (currentTheme s)). split; [apply opposite_valid|].
    apply lookup_insert_eq.
  - exists t. split; [done|]. apply lookup_insert_eq.
Qed.

(** What the handler of a system change does, and that it does nothing in any
    state that follows a toggle when the storage works. *)
Lemma handleSystemThemeChange_ignored_after_toggle (s : State)
    (acts : list action) (e : Event) :
  getItem_throws (localStorage s) = false →
  setItem_throws (localStorage s) = false →
  handleSystemThemeChange e (run acts (toggleTheme s)) = run acts (toggleTheme s).
Proof.
  intros Hg Hs.
  destruct (stored_after_toggle s acts Hg Hs) as (t & Hv & Hr).
  apply handleSystemThemeChange_effect. rewrite Hr. by apply validTheme_truthy.
Qed.

(** C3, as stated, fails where storage refuses access: the user toggles to
    dark, then a system change to light switches the page back to light. *)
Lemma system_change_overrides_toggle_when_storage_blocked :
  let s := step (Fire (Node 0) (plain click)) (loaded blockedStoragePage) in
  currentTheme s = "dark" ∧ dataTheme s = Some "dark"
  ∧ currentTheme (step (SystemTheme false) s) = "light"
  ∧ dataTheme (step (SystemTheme false) s) = Some "light".
Proof. vm_compute. done. Qed.

(** C4: along every execution the items of the storage differ from those the
    page started with at most under the theme key, and what is stored there
    is then "light" or "dark"; with the key absent both the initial theme
    and a system change follow the system preference. *)
Theorem stored_theme_invariant (page : State) (acts : list action) :
  let s := run acts (new_WindowsHistoryApp page) in
  (storedTheme s = storedTheme page ∨ ∃ t, validTheme t ∧ storedTheme s = Some t)
  ∧ (∀ k, k ≠ STORAGE_KEYS_THEME →
       items (localStorage s) !! k = items (localStorage page) !! k)
  ∧ (storedTheme s = None →
       currentTheme (determineInitialTheme s) = systemTheme s
       ∧ ∀ e, currentTheme (handleSystemThemeChange e s) = eventTheme e).
Proof.
  intros s.
  pose proof (storage_ok_run (localStorage page) acts (new_WindowsHistoryApp page))
    as (_ & _ & Hi).
  { rewrite new_WindowsHistoryApp_storage. apply theme_writes_only_refl. }
  fold s in Hi. unfold storedTheme. split_and!.
  - destruct Hi as [-> | (t & Hv & ->)]; [by left|].
    right. exists t. split; [done|]. apply lookup_insert_eq.
  - intros k Hk. destruct Hi as [-> | (t & Hv & ->)]; [done|].
    by apply lookup_insert_ne.
  - intros Hnone.
    assert (Hr : readStoredTheme s = None).
    { unfold readStoredTheme, storedTheme. by destruct (getItem_throws _). }
    split.
    + rewrite (proj1 (determineInitialTheme_effect s)).
      unfold initialTheme. by rewrite Hr.
    + intros e. apply handleSystemThemeChange_effect. by rewrite Hr.
Qed.

Lemma stored_theme_invariant_witness :
  currentTheme
    (determineInitialTheme
       (run [Fire Document (plain DOMContentLoaded); SystemTheme true]
            (new_WindowsHistoryApp examplePage)))
  = systemTheme
      (run [Fire Document (plain DOMContentLoaded); SystemTheme true]
           (new_WindowsHistoryApp examplePage)).
Proof.
  pose proof (stored_theme_invariant examplePage
                [Fire Document (plain DOMContentLoaded); SystemTheme true]) as H.
  cbv zeta in H. destruct H as (_ & _ & H).
  destruct H as [H _]; [vm_compute; reflexivity | exact H].
Defined.

(** ** The wiring of a loaded page *)

Lemma wiringView_fields s s' :
  wiringView s' = wiringView s →
  themeBtn s' = themeBtn s ∧ homeBtn s' = homeBtn s ∧ searchBtn s' = searchBtn s
  ∧ searchSection s' = searchSection s ∧ scrollTopBtn s' = scrollTopBtn s
  ∧ searchForm s' = searchForm s ∧ listeners s' = listeners s
  ∧ q_searchForm s' = q_searchForm s ∧ q_input_q s' = q_input_q s
  ∧ el_id <$> dom s' = el_id <$> dom s.
Proof. unfold wiringView. intros [= -> -> -> -> -> -> -> -> -> ->]. done. Qed.

Lemma ids_alter (f : Element → Element) n (l : list Element) :
  (∀ x, el_id (f x) = el_id x) → el_id <$> alter f n l = el_id <$> l.
Proof.
  intros Hf. rewrite (list_fmap_alter el_id f id).
  - by apply list_alter_id.
  - by apply Forall_forall.
Qed.

Lemma wiringView_update_node n f s :
  (∀ x, el_id (f x) = el_id x) → wiringView (update_node n f s) = wiringView s.
Proof.
  intros Hf. unfold wiringView, update_node. cbn [set_dom themeBtn homeBtn searchBtn
    searchSection scrollTopBtn searchForm listeners q_searchForm q_input_q dom].
  by rewrite ids_alter.
Qed.

Lemma el_id_classList_add c x : el_id (classList_add c x) = el_id x.
Proof. unfold classList_add. by destruct (classList_contains c x). Qed.

Lemma wiringView_setAccessibilityAttributes n attrs s :
  wiringView (setAccessibilityAttributes n attrs s) = wiringView s.
Proof.
  unfold setAccessibilityAttributes. apply foldl_keeps.
  intros s0 a. by apply wiringView_update_node.
Qed.

Lemma wiringView_animateIntro s : wiringView (animateIntro s) = wiringView s.
Proof.
  unfold animateIntro. apply foldl_keeps. intros s0 a.
  rewrite wiringView_update_node by done.
  apply wiringView_update_node, el_id_classList_add.
Qed.

Lemma wiringView_console_write c s : wiringView (console_write c s) = wiringView s.
Proof. reflexivity. Qed.

Lemma wiringView_applyTheme t save s : wiringView (applyTheme t save s) = wiringView s.
Proof.
  unfold applyTheme, safeSetStorage. cbv zeta.
  cbn [themeBtn set_documentElement set_currentTheme].
  assert (∀ s0, wiringView
            (if save then
               (match localStorage_setItem STORAGE_KEYS_THEME t (localStorage s0) with
                | Some st => (true, set_localStorage st s0)
                | None => (false, console_write WarnStorageSetFailed s0)
                end).2
             else s0) = wiringView s0) as ->.
  { intros s0. destruct save; [|done]. by destruct (localStorage_setItem _ _ _). }
  destruct (themeBtn s); [|done].
  by rewrite !wiringView_update_node.
Qed.

Lemma wiringView_safeGetStorage k s :
  wiringView (safeGetStorage k s).2 = wiringView s.
Proof. unfold safeGetStorage. by destruct (localStorage_getItem _ _). Qed.

Lemma wiringView_determineInitialTheme s :
  wiringView (determineInitialTheme s) = wiringView s.
Proof.
  rewrite determineInitialTheme_unfold. cbv zeta.
  destruct (readStoredTheme s) as [t|]; [case_bool_decide|];
    by rewrite wiringView_applyTheme, wiringView_safeGetStorage.
Qed.

Lemma find_index_Some {A} (p : A → bool) (l : list A) n :
  find_index p l = Some n → ∃ x, l !! n = Some x ∧ p x = true.
Proof.
  revert n. induction l as [|x l IH]; intros n; simpl; [done|].
  destruct (p x) eqn:E.
  - intros [= <-]. eauto.
  - destruct (find_index p l) as [m|]; [|done]. intros [= <-].
    destruct (IH m eq_refl) as (y & ? & ?). eauto.
Qed.

Lemma getElementById_Some i s n :
  getElementById i s = Some n → ∃ el, dom s !! n = Some el ∧ el_id el = Some i.
Proof.
  intros H. apply find_index_Some in H as (el & Hl & Hp).
  exists el. split; [done|]. unfold has_id in Hp. by apply bool_decide_eq_true in Hp.
Qed.

Lemma getElementById_distinct i j s n m :
  i ≠ j → getElementById i s = Some n → getElementById j s = Some m → n ≠ m.
Proof.
  intros Hij Hn Hm ->.
  apply getElementById_Some in Hn as (el & Hl & Hi).
  apply getElementById_Some in Hm as (el' & Hl' & Hj).
  congruence.
Qed.

Lemma setupHoverEffects_unfold s :
  setupHoverEffects s
  = set_listeners
      (listeners s ++ hoverRegs (querySelectorAll_classes ["content-block"; "quad-block"] s)) s.
Proof.
  unfold setupHoverEffects. cbv zeta.
  generalize (querySelectorAll_classes ["content-block"; "quad-block"] s).
  intros l. revert s. induction l as [|b l IH]; intros s.
  - destruct s. simpl. by rewrite app_nil_r.
  - cbn [foldl]. rewrite IH. destruct s. unfold hoverRegs.
    cbn. by rewrite <- !app_assoc.
Qed.

Lemma dispatchEvent_handlers t e s :
  dispatchEvent t e s = run_listeners (handlers t (ev_type e) s) e s.
Proof. reflexivity. Qed.

Lemma handlersOf_nil t ty : handlersOf t ty [] = [].
Proof. reflexivity. Qed.

Lemma handlersOf_cons t ty r rs :
  handlersOf t ty (r :: rs)
  = (if listens t ty r then [reg_listener r] else []) ++ handlersOf t ty rs.
Proof.
  unfold handlersOf. rewrite filter_cons.
  destruct (listens t ty r); by case_decide.
Qed.

Lemma handlersOf_app t ty rs1 rs2 :
  handlersOf t ty (rs1 ++ rs2) = handlersOf t ty rs1 ++ handlersOf t ty rs2.
Proof. unfold handlersOf. by rewrite filter_app, fmap_app. Qed.

Lemma handlersOf_hoverRegs t ty blocks :
  ty ≠ mouseenter → ty ≠ mouseleave → handlersOf t ty (hoverRegs blocks) = [].
Proof.
  intros H1 H2. induction blocks as [|b l IH]; [done|].
  unfold hoverRegs in *. csimpl. rewrite !handlersOf_cons, IH.
  unfold listens. cbn [reg_type].
  rewrite (bool_decide_eq_false_2 (mouseenter = ty)) by done.
  rewrite (bool_decide_eq_false_2 (mouseleave = ty)) by done.
  by rewrite !andb_false_r.
Qed.

Lemma listens_node b n ty ty' l :
  listens (Node n) ty (mkRegistration (Node b) ty' l)
  = bool_decide (b = n) && bool_decide (ty' = ty).
Proof.
  unfold listens. cbn [reg_target reg_type]. f_equal.
  apply bool_decide_ext. split; congruence.
Qed.

Lemma listens_refl t ty l : listens t ty (mkRegistration t ty l) = true.
Proof.
  unfold listens. cbn [reg_target reg_type].
  by rewrite !bool_decide_eq_true_2.
Qed.

Lemma listens_other_target t n ty ty' l :
  (∀ b, t ≠ Node b) → listens (Node n) ty (mkRegistration t ty' l) = false.
Proof.
  intros H. unfold listens. cbn [reg_target].
  rewrite bool_decide_eq_false_2; [done|]. intros ->. by apply (H n).
Qed.

(** The state after [setupElements]. *)
Lemma setupElements_wiringView s :
  wiringView (setupElements s)
  = (getElementById "themeToggle" s, getElementById "homeBtn" s,
     getElementById "scrollToSearch" s, getElementById "search" s,
     getElementById "scrollTopBtn" s, q_searchForm s, listeners s,
     q_searchForm s, q_input_q s, el_id <$> dom s).
Proof.
  unfold setupElements. cbn [scrollTopBtn set_elements].
  destruct (getElementById "scrollTopBtn" s) as [b|] eqn:E.
  - rewrite wiringView_setAccessibilityAttributes.
    unfold wiringView. cbn [set_elements themeBtn homeBtn searchBtn searchSection
      scrollTopBtn searchForm listeners q_searchForm q_input_q dom].
    reflexivity.
  - unfold wiringView. cbn [set_elements themeBtn homeBtn searchBtn searchSection
      scrollTopBtn searchForm listeners q_searchForm q_input_q dom].
    reflexivity.
Qed.

Lemma wiringView_set_listeners ls s :
  wiringView (set_listeners ls s) = withListeners (λ _, ls) (wiringView s).
Proof. reflexivity. Qed.

Lemma wiringView_addEventListener t ty l s :
  wiringView (addEventListener t ty l s)
  = withListeners (λ ls, ls ++ [mkRegistration t ty l]) (wiringView s).
Proof. reflexivity. Qed.

Lemma wiringView_set_isInitialized b s :
  wiringView (set_isInitialized b s) = wiringView s.
Proof. reflexivity. Qed.

Lemma querySelectorAll_classes_set_listeners cs ls s :
  querySelectorAll_classes cs (set_listeners ls s) = querySelectorAll_classes cs s.
Proof. reflexivity. Qed.

Lemma listeners_set_listeners ls s : listeners (set_listeners ls s) = ls.
Proof. reflexivity. Qed.

(** The wiring after the handler of DOMContentLoaded. *)
Lemma initialize_wiringView s :
  wiringView (initialize s)
  = withListeners
      (λ ls, ls ++ wiring (setupElements s)
             ++ hoverRegs (querySelectorAll_classes ["content-block"; "quad-block"]
                             (setupElements s))
             ++ [systemThemeReg])
      (wiringView (setupElements s)).
Proof.
  unfold initialize, setupTheme. cbv zeta.
  rewrite wiringView_console_write, wiringView_set_isInitialized,
    wiringView_animateIntro, wiringView_addEventListener,
    wiringView_determineInitialTheme, setupEventListeners_wiring,
    setupHoverEffects_unfold, wiringView_set_listeners,
    wiringView_set_listeners, listeners_set_listeners,
    querySelectorAll_classes_set_listeners.
  generalize (setupElements s). intros s1.
  unfold wiringView, withListeners, systemThemeReg.
  by rewrite <- !app_assoc.
Qed.

Lemma handlersOf_opt (o : option nat) n ty ty' l :
  handlersOf (Node n) ty
    match o with Some b => [mkRegistration (Node b) ty' l] | None => [] end
  = if bool_decide (o = Some n) && bool_decide (ty' = ty) then [l] else [].
Proof.
  destruct o as [b|]; [|done].
  rewrite handlersOf_cons, handlersOf_nil, app_nil_r, listens_node.
  cbn [reg_listener].
  by rewrite (bool_decide_ext (b = n) (Some b = Some n)) by (split; congruence).
Qed.

(** The listeners that [setupEventListeners] puts on a node for clicks, key
    presses and form submission. *)
Lemma handlersOf_wiring n ty s :
  handlersOf (Node n) ty (wiring s)
  = (if bool_decide (themeBtn s = Some n) && bool_decide (click = ty)
     then [OnThemeClick] else [])
    ++ (if bool_decide (homeBtn s = Some n) && bool_decide (click = ty)
        then [OnHomeClick] else [])
    ++ (if bool_decide (searchBtn s = Some n) && bool_decide (click = ty)
        then if searchSection s is Some _ then [OnSearchClick] else [] else [])
    ++ (if bool_decide (scrollTopBtn s = Some n)
        then (if bool_decide (click = ty) then [OnScrollTopClick] else [])
             ++ (if bool_decide (keydown = ty) then [OnScrollTopKeydown] else [])
        else [])
    ++ (if bool_decide (searchForm s = Some n) && bool_decide (submit = ty)
        then [OnSubmit] else []).
Proof.
  unfold wiring. rewrite !handlersOf_app, !handlersOf_opt.
  f_equal. f_equal. f_equal; [|f_equal].
  - destruct (searchSection s).
    + apply handlersOf_opt.
    + destruct (searchBtn s); [|done]. rewrite handlersOf_nil.
      by destruct (_ && _).
  - destruct (scrollTopBtn s) as [b|]; [|done].
    rewrite !handlersOf_cons, handlersOf_nil, !listens_node, app_nil_r.
    rewrite listens_other_target by done.
    cbn [reg_listener].
    rewrite (bool_decide_ext (Some b = Some n) (b = n)) by (split; congruence).
    by destruct (bool_decide (b = n)), (bool_decide (click = ty)),
      (bool_decide (keydown = ty)).
Qed.

Lemma new_WindowsHistoryApp_wiringView page :
  wiringView (new_WindowsHistoryApp page)
  = (None, None, None, None, None, None, listeners page ++ [domContentLoadedReg],
     q_searchForm page, q_input_q page, el_id <$> dom page).
Proof. reflexivity. Qed.

Lemma run_listeners_one l e s : run_listeners [l] e s = run_listener l e s.
Proof. unfold run_listeners. cbn [foldl fst snd]. by destruct (run_listener l e s). Qed.

Lemma loaded_initialize page :
  listeners page = [] → loaded page = initialize (new_WindowsHistoryApp page).
Proof.
  intros Hl. unfold loaded. cbn [step]. rewrite dispatchEvent_handlers.
  unfold handlers.
  pose proof (f_equal (λ v, v.1.1.1.2) (new_WindowsHistoryApp_wiringView page)) as Hw.
  unfold wiringView in Hw. cbn [fst snd] in Hw.
  rewrite Hw, Hl. cbn [app]. rewrite handlersOf_cons, handlersOf_nil.
  unfold domContentLoadedReg, plain. cbn [ev_type reg_listener].
  rewrite listens_refl. cbn [app]. by rewrite run_listeners_one.
Qed.

Lemma wiringView_split s tb hb sb ss st sf ls qf qi ids :
  wiringView s = (tb, hb, sb, ss, st, sf, ls, qf, qi, ids) →
  themeBtn s = tb ∧ homeBtn s = hb ∧ searchBtn s = sb ∧ searchSection s = ss
  ∧ scrollTopBtn s = st ∧ searchForm s = sf ∧ listeners s = ls
  ∧ q_searchForm s = qf ∧ q_input_q s = qi ∧ el_id <$> dom s = ids.
Proof. unfold wiringView. intros [= -> -> -> -> -> -> -> -> -> ->]. done. Qed.

Lemma getElementById_new i page :
  getElementById i (new_WindowsHistoryApp page) = getElementById i page.
Proof. reflexivity. Qed.

(** The element references and the listeners of a loaded page. *)
Lemma loaded_wiringView page :
  listeners page = [] →
  wiringView (loaded page)
  = (getElementById "themeToggle" page, getElementById "homeBtn" page,
     getElementById "scrollToSearch" page, getElementById "search" page,
     getElementById "scrollTopBtn" page, q_searchForm page,
     [domContentLoadedReg]
       ++ wiring (setupElements (new_WindowsHistoryApp page))
       ++ hoverRegs (querySelectorAll_classes ["content-block"; "quad-block"]
                       (setupElements (new_WindowsHistoryApp page)))
       ++ [systemThemeReg],
     q_searchForm page, q_input_q page, el_id <$> dom page).
Proof.
  intros Hl. rewrite (loaded_initialize page Hl), initialize_wiringView,
    setupElements_wiringView, !getElementById_new.
  pose proof (new_WindowsHistoryApp_wiringView page) as Hw.
  apply wiringView_split in Hw as (_ & _ & _ & _ & _ & _ & -> & -> & -> & ->).
  unfold withListeners. by rewrite Hl.
Qed.

Lemma setupElements_new_fields page :
  let s1 := setupElements (new_WindowsHistoryApp page) in
  themeBtn s1 = getElementById "themeToggle" page
  ∧ homeBtn s1 = getElementById "homeBtn" page
  ∧ searchBtn s1 = getElementById "scrollToSearch" page
  ∧ searchSection s1 = getElementById "search" page
  ∧ scrollTopBtn s1 = getElementById "scrollTopBtn" page
  ∧ searchForm s1 = q_searchForm page.
Proof.
  intros s1.
  pose proof (setupElements_wiringView (new_WindowsHistoryApp page)) as Hw.
  rewrite !getElementById_new in Hw.
  apply wiringView_split in Hw as (? & ? & ? & ? & ? & Hf & _).
  by split_and!.
Qed.

(** The listeners that a click, a key press or a submission on node [n]
    runs on a loaded page. *)
Lemma handlers_loaded page n ty :
  listeners page = [] →
  ty = click ∨ ty = keydown ∨ ty = submit →
  handlers (Node n) ty (loaded page)
  = (if bool_decide (getElementById "themeToggle" page = Some n)
        && bool_decide (click = ty)
     then [OnThemeClick] else [])
    ++ (if bool_decide (getElementById "homeBtn" page = Some n)
           && bool_decide (click = ty)
        then [OnHomeClick] else [])
    ++ (if bool_decide (getElementById "scrollToSearch" page = Some n)
           && bool_decide (click = ty)
        then if getElementById "search" page is Some _ then [OnSearchClick] else []
        else [])
    ++ (if bool_decide (getElementById "scrollTopBtn" page = Some n)
        then (if bool_decide (click = ty) then [OnScrollTopClick] else [])
             ++ (if bool_decide (keydown = ty) then [OnScrollTopKeydown] else [])
        else [])
    ++ (if bool_decide (q_searchForm page = Some n) && bool_decide (submit = ty)
        then [OnSubmit] else []).
Proof.
  intros Hl Hty. unfold handlers.
  pose proof (loaded_wiringView page Hl) as Hw.
  apply wiringView_split in Hw as (_ & _ & _ & _ & _ & _ & -> & _).
  rewrite !handlersOf_app, handlersOf_wiring.
  destruct (setupElements_new_fields page) as (-> & -> & -> & -> & -> & ->).
  rewrite handlersOf_hoverRegs by (destruct Hty as [-> | [-> | ->]]; done).
  rewrite !handlersOf_cons, !handlersOf_nil.
  unfold domContentLoadedReg, systemThemeReg.
  rewrite !listens_other_target by done.
  cbn [app]. by rewrite !app_nil_r.
Qed.

(** ** What user actions leave alone *)

Lemma sameWiring_refl s : sameWiring s s.
Proof. by split. Qed.

Lemma sameWiring_trans s1 s2 s3 :
  sameWiring s1 s2 → sameWiring s2 s3 → sameWiring s1 s3.
Proof. intros [H1 H1'] [H2 H2']. split; congruence. Qed.

Lemma isInitialized_applyTheme t save s :
  isInitialized (applyTheme t save s) = isInitialized s.
Proof.
  unfold applyTheme, safeSetStorage. cbv zeta.
  cbn [themeBtn set_documentElement set_currentTheme].
  assert (∀ s0, isInitialized
            (if save then
               (match localStorage_setItem STORAGE_KEYS_THEME t (localStorage s0) with
                | Some st => (true, set_localStorage st s0)
                | None => (false, console_write WarnStorageSetFailed s0)
                end).2
             else s0) = isInitialized s0) as ->.
  { intros s0. destruct save; [|done]. by destruct (localStorage_setItem _ _ _). }
  by destruct (themeBtn s).
Qed.

Lemma sameWiring_applyTheme t save s : sameWiring s (applyTheme t save s).
Proof. split; [apply wiringView_applyTheme | apply isInitialized_applyTheme]. Qed.

Lemma sameWiring_toggleTheme s : sameWiring s (toggleTheme s).
Proof.
  rewrite toggleTheme_unfold.
  eapply sameWiring_trans; [apply sameWiring_applyTheme | by split].
Qed.

Lemma sameWiring_safeGetStorage k s : sameWiring s (safeGetStorage k s).2.
Proof. unfold safeGetStorage. by destruct (localStorage_getItem _ _). Qed.

Lemma sameWiring_handleSystemThemeChange e s :
  sameWiring s (handleSystemThemeChange e s).
Proof.
  rewrite handleSystemThemeChange_unfold. destruct (falsy _); [|by split].
  eapply sameWiring_trans; [apply sameWiring_safeGetStorage|].
  apply sameWiring_applyTheme.
Qed.

Lemma sameWiring_scrollToTop s : sameWiring s (scrollToTop s).
Proof.
  unfold scrollToTop. cbv zeta. cbn [scrollTopBtn set_scrollRequests].
  by destruct (scrollTopBtn s).
Qed.

Lemma sameWiring_smoothScrollToElement el s :
  sameWiring s (smoothScrollToElement el s).
Proof. by destruct el. Qed.

Lemma sameWiring_handleSearch e s s' : handleSearch e s = Some s' → sameWiring s s'.
Proof.
  unfold handleSearch. intros H.
  destruct (searchForm s); [|done].
  destruct (q_input_q s ≫= _); [|by simplify_eq].
  case_bool_decide; by simplify_eq.
Qed.

Lemma el_id_classList_remove c x : el_id (classList_remove c x) = el_id x.
Proof. reflexivity. Qed.

Lemma sameWiring_update_node n f s :
  (∀ x, el_id (f x) = el_id x) → sameWiring s (update_node n f s).
Proof. intros Hf. split; [by apply wiringView_update_node | done]. Qed.

Lemma sameWiring_toggleScrollButton s : sameWiring s (toggleScrollButton s).
Proof.
  unfold toggleScrollButton. destruct (scrollTopBtn s); [|by split].
  destruct (_ <? _); apply sameWiring_update_node;
    [apply el_id_classList_add | apply el_id_classList_remove].
Qed.

Lemma sameWiring_run_listener l e s :
  l ≠ OnDOMContentLoaded → sameWiring s (run_listener l e s).1.
Proof.
  intros Hl. destruct l; cbn [run_listener fst]; try done.
  - apply sameWiring_toggleTheme.
  - apply sameWiring_scrollToTop.
  - apply sameWiring_smoothScrollToElement.
  - apply sameWiring_scrollToTop.
  - case_bool_decide; [apply sameWiring_scrollToTop | by split].
  - destruct (handleSearch e s) as [s'|] eqn:E; cbn [default]; [|by split].
    by apply (sameWiring_handleSearch e).
  - apply sameWiring_handleSystemThemeChange.
  - apply sameWiring_update_node, el_id_classList_add.
  - apply sameWiring_update_node, el_id_classList_remove.
Qed.

Lemma sameWiring_run_listeners ls e s :
  OnDOMContentLoaded ∉ ls → sameWiring s (run_listeners ls e s).1.
Proof.
  unfold run_listeners. generalize false. revert s.
  induction ls as [|l ls IH]; intros s p H; cbn [foldl fst]; [by split|].
  apply not_elem_of_cons in H as [H1 H2].
  eapply sameWiring_trans; [|by apply IH].
  apply sameWiring_run_listener. congruence.
Qed.

Lemma isInitialized_initialize s : isInitialized (initialize s) = true.
Proof. reflexivity. Qed.

Lemma wiring_listener r s : r ∈ wiring s → reg_listener r ≠ OnDOMContentLoaded.
Proof.
  unfold wiring. rewrite !elem_of_app. intros [H|[H|[H|[H|H]]]].
  - destruct (themeBtn s); [|by apply elem_of_nil in H].
    by apply list_elem_of_singleton in H as ->.
  - destruct (homeBtn s); [|by apply elem_of_nil in H].
    by apply list_elem_of_singleton in H as ->.
  - destruct (searchBtn s); [|by apply elem_of_nil in H].
    destruct (searchSection s); [|by apply elem_of_nil in H].
    by apply list_elem_of_singleton in H as ->.
  - destruct (scrollTopBtn s); [|by apply elem_of_nil in H].
    repeat (apply elem_of_cons in H as [-> | H]; [done|]).
    by apply elem_of_nil in H.
  - destruct (searchForm s); [|by apply elem_of_nil in H].
    by apply list_elem_of_singleton in H as ->.
Qed.

Lemma hoverRegs_listener r blocks :
  r ∈ hoverRegs blocks → reg_listener r ≠ OnDOMContentLoaded.
Proof.
  unfold hoverRegs. rewrite list_elem_of_bind. intros (b & H & _).
  repeat (apply elem_of_cons in H as [-> | H]; [done|]).
  by apply elem_of_nil in H.
Qed.

Lemma handlers_loaded_DOMContentLoaded page t ty :
  listeners page = [] →
  OnDOMContentLoaded ∈ handlers t ty (loaded page) →
  t = Document ∧ ty = DOMContentLoaded.
Proof.
  intros Hl. unfold handlers, handlersOf.
  pose proof (loaded_wiringView page Hl) as Hw.
  apply wiringView_split in Hw as (_ & _ & _ & _ & _ & _ & -> & _).
  rewrite list_elem_of_fmap. intros (r & Hr & Hin).
  apply list_elem_of_filter in Hin as [Hlis Hin].
  rewrite !elem_of_app in Hin. destruct Hin as [Hin|[Hin|[Hin|Hin]]].
  - apply list_elem_of_singleton in Hin as ->.
    unfold listens, domContentLoadedReg in Hlis. cbn [reg_target reg_type] in Hlis.
    apply andb_True in Hlis as [H1 H2].
    apply bool_decide_unpack in H1, H2. done.
  - by apply wiring_listener in Hin.
  - by apply hoverRegs_listener in Hin.
  - by apply list_elem_of_singleton in Hin as ->.
Qed.

Lemma handlers_listeners t ty s s' :
  listeners s' = listeners s → handlers t ty s' = handlers t ty s.
Proof. unfold handlers. by intros ->. Qed.

Section AfterLoad.
Variable page : State.
Hypothesis page_fresh : listeners page = [].

Lemma step_sameWiring a s :
  postLoad a → sameWiring (loaded page) s → sameWiring (loaded page) (step a s).
Proof.
  intros Ha Hs. eapply sameWiring_trans; [exact Hs|].
  assert (Hh : ∀ t ty, handlers t ty s = handlers t ty (loaded page)).
  { intros t ty. unfold handlers. destruct Hs as [Hw _].
    apply wiringView_fields in Hw as (_ & _ & _ & _ & _ & _ & -> & _). done. }
  destruct a; cbn [step].
  - unfold init. destruct Hs as [_ ->].
    rewrite (loaded_initialize page page_fresh), isInitialized_initialize.
    by split.
  - rewrite dispatchEvent_handlers. apply sameWiring_run_listeners.
    rewrite (Hh t (ev_type e)). intros Hin.
    apply (handlers_loaded_DOMContentLoaded page _ _ page_fresh) in Hin as [-> Hty].
    by apply Ha.
  - rewrite dispatchEvent_handlers.
    eapply (sameWiring_trans _ (set_prefersDark dark s)); [by split|].
    apply sameWiring_run_listeners.
    cbn [ev_type].
    rewrite (handlers_listeners _ _ s (set_prefersDark dark s)) by done.
    rewrite (Hh ColorSchemeQuery change). intros Hin.
    by apply (handlers_loaded_DOMContentLoaded page _ _ page_fresh) in Hin as [? _].
  - rewrite dispatchEvent_handlers.
    eapply (sameWiring_trans _ (set_scrollY y s)); [by split|].
    apply sameWiring_run_listeners.
    cbn [ev_type].
    rewrite (handlers_listeners _ _ s (set_scrollY y s)) by done.
    rewrite (Hh Window scroll). intros Hin.
    by apply (handlers_loaded_DOMContentLoaded page _ _ page_fresh) in Hin as [? _].
  - case_bool_decide; [|by split].
    eapply sameWiring_trans; [|apply sameWiring_toggleScrollButton]. by split.
  - by apply sameWiring_update_node.
  - by split.
Qed.

Lemma run_sameWiring acts :
  Forall postLoad acts → sameWiring (loaded page) (run acts (loaded page)).
Proof.
  assert (∀ s, Forall postLoad acts → sameWiring (loaded page) s →
               sameWiring (loaded page) (run acts s)) as H.
  { induction acts as [|a acts IH]; intros s Hf Hs; cbn [run foldl]; [done|].
    apply Forall_cons in Hf as [Ha Hf]. apply IH; [done|].
    by apply step_sameWiring. }
  intros Hf. apply H; [done | apply sameWiring_refl].
Qed.

(** The wiring stays as the load left it. *)
Lemma run_wiring acts :
  Forall postLoad acts →
  let s := run acts (loaded page) in
  (∀ t ty, handlers t ty s = handlers t ty (loaded page))
  ∧ themeBtn s = getElementById "themeToggle" page
  ∧ homeBtn s = getElementById "homeBtn" page
  ∧ searchBtn s = getElementById "scrollToSearch" page
  ∧ searchSection s = getElementById "search" page
  ∧ scrollTopBtn s = getElementById "scrollTopBtn" page
  ∧ searchForm s = q_searchForm page
  ∧ q_input_q s = q_input_q page
  ∧ length (dom s) = length (dom page).
Proof.
  intros Hf s. destruct (run_sameWiring acts Hf) as [Hw _]. fold s in Hw.
  rewrite (loaded_wiringView page page_fresh) in Hw.
  apply wiringView_split in Hw as (? & ? & ? & ? & ? & ? & Hl & ? & ? & Hi).
  split_and!; try done.
  - intros t ty. unfold handlers. rewrite Hl.
    pose proof (loaded_wiringView page page_fresh) as Hw.
    by apply wiringView_split in Hw as (_ & _ & _ & _ & _ & _ & -> & _).
  - by rewrite <- (length_fmap el_id (dom s)), Hi, length_fmap.
Qed.
End AfterLoad.

Lemma getElementById_other i j page n :
  i ≠ j → getElementById i page = Some n →
  bool_decide (getElementById j page = Some n) = false.
Proof.
  intros Hij Hi. apply bool_decide_eq_false_2. intros Hj.
  by apply (getElementById_distinct i j page n n Hij Hi Hj).
Qed.

Lemma step_Fire t e s :
  step (Fire t e) s = (run_listeners (handlers t (ev_type e) s) e s).1.
Proof. reflexivity. Qed.

Ltac decide_types :=
  repeat match goal with
    | |- context [bool_decide (?a = ?a)] =>
        rewrite (bool_decide_eq_true_2 (a = a)) by reflexivity
    | |- context [bool_decide (@eq event_type ?a ?b)] =>
        rewrite (bool_decide_eq_false_2 (a = b)) by discriminate
    end;
  rewrite ?andb_true_r, ?andb_false_r; cbn [app].

(** ** Scrolling to the search section *)

(** C6, as amended: a click on the search button of a loaded page scrolls the
    search section into view when that section exists; when it is missing
    the button has no listener, so the click changes nothing: no navigation
    and no warning.  The warning of [smoothScrollToElement] is what a direct
    call with a missing element produces. *)
Theorem search_button_click (page : State) (acts : list action) (n : nat) :
  listeners page = [] → Forall postLoad acts →
  getElementById "scrollToSearch" page = Some n →
  (∀ m, getElementById "search" page = Some m →
     step (Fire (Node n) (plain click)) (run acts (loaded page))
     = set_scrollRequests
         (scrollRequests (run acts (loaded page)) ++ [ScrollIntoView m "smooth" "center"])
         (run acts (loaded page)))
  ∧ (getElementById "search" page = None →
     step (Fire (Node n) (plain click)) (run acts (loaded page))
     = run acts (loaded page))
  ∧ (∀ s0, console (smoothScrollToElement None s0)
           = console s0 ++ [WarnScrollTargetMissing]
           ∧ scrollRequests (smoothScrollToElement None s0) = scrollRequests s0).
Proof.
  intros Hl Hacts Hn.
  destruct (run_wiring page Hl acts Hacts) as (Hh & _ & _ & _ & Hss & _).
  set (s := run acts (loaded page)) in *.
  assert (Hhs : handlers (Node n) click s
                = if getElementById "search" page is Some _ then [OnSearchClick] else []).
  { rewrite (Hh (Node n) click), (handlers_loaded page n click Hl) by auto.
    rewrite (getElementById_other "scrollToSearch" "themeToggle" page n),
      (getElementById_other "scrollToSearch" "homeBtn" page n),
      (getElementById_other "scrollToSearch" "scrollTopBtn" page n) by done.
    rewrite Hn. decide_types. by rewrite app_nil_r. }
  split_and!.
  - intros m Hm. rewrite step_Fire. cbn [plain ev_type]. rewrite Hhs, Hm.
    rewrite run_listeners_one. cbn [run_listener fst]. by rewrite Hss, Hm.
  - intros Hm. rewrite step_Fire. cbn [plain ev_type]. by rewrite Hhs, Hm.
  - done.
Qed.

Lemma search_button_click_witness :
  scrollRequests (step (Fire (Node 2) (plain click))
                       (run [Scroll 10] (loaded examplePage)))
  = [ScrollIntoView 5 "smooth" "center"].
Proof.
  pose proof (search_button_click examplePage [Scroll 10] 2) as H.
  destruct H as (H & _).
  - reflexivity.
  - by repeat constructor.
  - vm_compute; reflexivity.
  - rewrite (H 5); vm_compute; reflexivity.
Defined.

(** C6, as stated, fails on a page whose search section is missing: the
    click on the search button logs nothing at all. *)
Lemma missing_search_section_logs_no_warning :
  getElementById "scrollToSearch" pageWithoutSearch = Some 2
  ∧ getElementById "search" pageWithoutSearch = None
  ∧ console (step (Fire (Node 2) (plain click)) (loaded pageWithoutSearch))
    = console (loaded pageWithoutSearch)
  ∧ WarnScrollTargetMissing
    ∉ console (step (Fire (Node 2) (plain click)) (loaded pageWithoutSearch)).
Proof.
  split_and!; [vm_compute; reflexivity..|].
  assert (console (step (Fire (Node 2) (plain click)) (loaded pageWithoutSearch))
          = [LogInitialized]) as -> by (vm_compute; reflexivity).
  by intros ?%list_elem_of_singleton.
Qed.

(** ** Scroll to top *)

Lemma scrollToTop_effect s :
  scrollRequests (scrollToTop s) = scrollRequests s ++ [WindowScrollTo 0 "smooth"]
  ∧ activeElement (scrollToTop s)
    = match scrollTopBtn s with Some b => Some b | None => activeElement s end.
Proof.
  unfold scrollToTop. cbv zeta. cbn [scrollTopBtn set_scrollRequests].
  by destruct (scrollTopBtn s).
Qed.

(** C7, as amended: a click on the home button, and a click or an Enter or
    space key press on the scroll-to-top button, run the scroll-to-top
    operation, which asks for a smooth scroll of the window to the origin and
    then moves the focus to the scroll-to-top button when the page has one,
    whichever control triggered it; without that button the focus stays
    where it was. *)
Theorem scrollToTop_focus (page : State) (acts : list action) :
  listeners page = [] → Forall postLoad acts →
  let s := run acts (loaded page) in
  (∀ h, getElementById "homeBtn" page = Some h →
     step (Fire (Node h) (plain click)) s = scrollToTop s)
  ∧ (∀ b, getElementById "scrollTopBtn" page = Some b →
     step (Fire (Node b) (plain click)) s = scrollToTop s
     ∧ ∀ key, key = "Enter" ∨ key = " " →
         dispatchEvent (Node b) (mkEvent keydown key false) s = (scrollToTop s, true))
  ∧ scrollRequests (scrollToTop s) = scrollRequests s ++ [WindowScrollTo 0 "smooth"]
  ∧ activeElement (scrollToTop s)
    = match getElementById "scrollTopBtn" page with
      | Some b => Some b
      | None => activeElement s
      end.
Proof.
  intros Hl Hacts s.
  destruct (run_wiring page Hl acts Hacts) as (Hh & _ & _ & _ & _ & Hst & _).
  fold s in Hh, Hst.
  destruct (scrollToTop_effect s) as [Hreq Hfocus]. rewrite Hst in Hfocus.
  split_and!; [| |done..].
  - intros h Hhome. rewrite step_Fire. cbn [plain ev_type].
    rewrite (Hh (Node h) click), (handlers_loaded page h click Hl) by auto.
    rewrite (getElementById_other "homeBtn" "themeToggle" page h),
      (getElementById_other "homeBtn" "scrollToSearch" page h),
      (getElementById_other "homeBtn" "scrollTopBtn" page h) by done.
    rewrite Hhome. decide_types. by rewrite run_listeners_one.
  - intros b Hb. split.
    + rewrite step_Fire. cbn [plain ev_type].
      rewrite (Hh (Node b) click), (handlers_loaded page b click Hl) by auto.
      rewrite (getElementById_other "scrollTopBtn" "themeToggle" page b),
        (getElementById_other "scrollTopBtn" "scrollToSearch" page b),
        (getElementById_other "scrollTopBtn" "homeBtn" page b) by done.
      rewrite Hb. decide_types. by rewrite run_listeners_one.
    + intros key Hkey. rewrite dispatchEvent_handlers. cbn [ev_type].
      rewrite (Hh (Node b) keydown), (handlers_loaded page b keydown Hl) by auto.
      rewrite Hb. decide_types. rewrite run_listeners_one.
      cbn [run_listener ev_key]. by rewrite bool_decide_eq_true_2.
Qed.

Lemma scrollToTop_focus_witness :
  step (Fire (Node 1) (plain click)) (run [MoveFocus (Some 1)] (loaded examplePage))
  = scrollToTop (run [MoveFocus (Some 1)] (loaded examplePage)).
Proof.
  pose proof (scrollToTop_focus examplePage [MoveFocus (Some 1)]) as H.
  cbv zeta in H. destruct H as (H & _).
  - reflexivity.
  - by repeat constructor.
  - apply H. vm_compute; reflexivity.
Defined.

(** C7, as stated, fails for the home button: with the focus on the home
    button (node 1), activating it moves the focus to the scroll-to-top
    button (node 9). *)
Lemma home_button_loses_focus :
  let s := run [MoveFocus (Some 1)] (loaded examplePage) in
  homeBtn s = Some 1 ∧ scrollTopBtn s = Some 9 ∧ activeElement s = Some 1
  ∧ activeElement (step (Fire (Node 1) (plain click)) s) = Some 9.
Proof. vm_compute. done. Qed.

(** ** Search submission *)

Lemma trimStart_whitespace (s : jsstring) :
  Forall (λ c, isWhiteSpace c = true) s → trimStart s = [].
Proof. induction 1 as [|c s Hc _ IH]; simpl; [done|]. by rewrite Hc. Qed.

Lemma trim_whitespace (s : jsstring) :
  Forall (λ c, isWhiteSpace c = true) s → trim s = [].
Proof. intros H. unfold trim, trimEnd. by rewrite (trimStart_whitespace s H). Qed.

Lemma run_snoc acts a s : run (acts ++ [a]) s = step a (run acts s).
Proof. unfold run. by rewrite foldl_app. Qed.

Lemma handleSearch_effect e s f i el :
  searchForm s = Some f → q_input_q s = Some i → dom s !! i = Some el →
  handleSearch e s
  = Some (if bool_decide (trim (el_value el) ≠ [])
          then console_write (LogSearch (trim (el_value el))) s else s).
Proof.
  intros Hf Hi Hel. unfold handleSearch. rewrite Hf, Hi. cbn [mbind option_bind].
  rewrite Hel. by case_bool_decide.
Qed.

(** C8: when the search form of a loaded page is submitted while its input
    named q holds [v], the trimmed value is logged if it is not empty and
    nothing is logged otherwise, in particular for a value made of white
    space only; nothing else changes and the default action of the event is
    not prevented. *)
Theorem search_submission (page : State) (acts : list action) (f i : nat)
    (v : jsstring) :
  listeners page = [] → Forall postLoad acts →
  q_searchForm page = Some f → q_input_q page = Some i → i < length (dom page) →
  let s := step (TypeText i v) (run acts (loaded page)) in
  dispatchEvent (Node f) (plain submit) s
  = (if bool_decide (trim v ≠ []) then console_write (LogSearch (trim v)) s else s,
     false)
  ∧ (Forall (λ c, isWhiteSpace c = true) v →
     dispatchEvent (Node f) (plain submit) s = (s, false)).
Proof.
  intros Hl Hacts Hf Hi Hlt s.
  assert (Hacts' : Forall postLoad (acts ++ [TypeText i v])).
  { apply Forall_app. split; [done|]. by repeat constructor. }
  destruct (run_wiring page Hl _ Hacts') as (Hh & _ & _ & _ & _ & _ & Hsf & Hq & _).
  rewrite run_snoc in Hh, Hsf, Hq. fold s in Hh, Hsf, Hq.
  destruct (run_wiring page Hl _ Hacts) as (_ & _ & _ & _ & _ & _ & _ & _ & Hlen).
  assert (Hel : ∃ el, dom s !! i = Some el ∧ el_value el = v).
  { unfold s. cbn [step update_node set_dom dom].
    rewrite <- Hlen in Hlt. apply lookup_lt_is_Some_2 in Hlt as [el0 Hel0].
    exists (set_value v el0). by rewrite list_lookup_alter_eq, Hel0. }
  destruct Hel as (el & Hel & Hv).
  assert (Hd : dispatchEvent (Node f) (plain submit) s
    = (if bool_decide (trim v ≠ []) then console_write (LogSearch (trim v)) s else s,
       false)).
  { rewrite dispatchEvent_handlers. cbn [plain ev_type].
    rewrite (Hh (Node f) submit), (handlers_loaded page f submit Hl) by auto.
    rewrite Hf. decide_types.
    assert ((if bool_decide (getElementById "scrollTopBtn" page = Some f)
             then [] else []) = @nil listener) as -> by (by destruct (bool_decide _)).
    cbn [app]. rewrite run_listeners_one. cbn [run_listener].
    rewrite (handleSearch_effect _ s f i el) by (rewrite ?Hsf, ?Hq; done).
    by rewrite Hv. }
  split; [done|].
  intros Hws. rewrite Hd, (trim_whitespace v Hws).
  by rewrite bool_decide_eq_false_2 by (by intros ?).
Qed.

Lemma search_submission_witness :
  console (dispatchEvent (Node 6) (plain submit)
             (step (TypeText 7 (js "  windows 95 ")) (run [] (loaded examplePage)))).1
  = [LogInitialized; LogSearch (js "windows 95")].
Proof.
  pose proof (search_submission examplePage [] 6 7 (js "  windows 95 ")) as H.
  cbv zeta in H. destruct H as [H _].
  - reflexivity.
  - constructor.
  - reflexivity.
  - reflexivity.
  - vm_compute; lia.
  - rewrite H. vm_compute. reflexivity.
Defined.

(** ** Intro animation *)

Section Indices.
Context {A : Type} (p : A → bool).

Lemma indices_from_ge off l n : n ∈ indices_from p off l → off ≤ n.
Proof.
  revert off. induction l as [|x l IH]; intros off; simpl.
  - by intros ?%elem_of_nil.
  - destruct (p x).
    + intros [-> | H]%elem_of_cons; [lia|]. apply IH in H. lia.
    + intros H. apply IH in H. lia.
Qed.

Lemma indices_from_NoDup off l : NoDup (indices_from p off l).
Proof.
  revert off. induction l as [|x l IH]; intros off; simpl; [constructor|].
  destruct (p x); [|apply IH].
  constructor; [|apply IH]. intros H%indices_from_ge. lia.
Qed.

(** The selected positions come in document order. *)
Lemma indices_from_increasing off l j k n m :
  j < k → indices_from p off l !! j = Some n →
  indices_from p off l !! k = Some m → n < m.
Proof.
  revert off j k. induction l as [|x l IH]; intros off j k Hjk; simpl; [done|].
  destruct (p x); [|by apply IH].
  destruct k as [|k]; [lia|]. destruct j as [|j]; simpl.
  - intros [= <-] Hm. apply list_elem_of_lookup_2, indices_from_ge in Hm. lia.
  - apply IH. lia.
Qed.

Lemma indices_from_elem off l n :
  n ∈ indices_from p off l ↔ ∃ x, off ≤ n ∧ l !! (n - off) = Some x ∧ p x = true.
Proof.
  revert off. induction l as [|x l IH]; intros off; simpl.
  - rewrite elem_of_nil. split; [done|]. by intros (? & _ & ? & _).
  - assert (Hrec : n ∈ indices_from p (S off) l
                   ↔ ∃ y, off < n ∧ (x :: l) !! (n - off) = Some y ∧ p y = true).
    { rewrite IH. split; intros (y & Hle & Hl & Hp); exists y.
      - split_and!; [lia| |done]. by replace (n - off) with (S (n - S off)) by lia.
      - split_and!; [lia| |done].
        by replace (n - off) with (S (n - S off)) in Hl by lia. }
    destruct (p x) eqn:Hpx.
    + rewrite elem_of_cons, Hrec. split.
      * intros [-> | (y & ? & ? & ?)].
        -- exists x. rewrite Nat.sub_diag. by split_and!.
        -- exists y. split_and!; [lia|done..].
      * intros (y & Hle & Hl & Hp).
        destruct (decide (n = off)) as [->|]; [by left|].
        right. exists y. split_and!; [lia|done..].
    + rewrite Hrec. split.
      * intros (y & ? & ? & ?). exists y. split_and!; [lia|done..].
      * intros (y & Hle & Hl & Hp). exists y.
        destruct (decide (n = off)) as [->|]; [|split_and!; [lia|done..]].
        rewrite Nat.sub_diag in Hl. simpl in Hl. congruence.
Qed.
End Indices.

Lemma fadeIn_effect index el :
  el_animationDelay (fadeIn index el) = Some (index * CONFIG.ANIMATION_DELAY)
  ∧ "fade-in" ∈ el_classes (fadeIn index el).
Proof.
  split; [done|]. unfold fadeIn, classList_add, classList_contains. cbn.
  case_bool_decide; cbn; [done|]. apply elem_of_app. right. by left.
Qed.

Lemma fadeAll_cons off x l d :
  fadeAll off (x :: l) d = fadeAll (S off) l (alter (fadeIn off) x d).
Proof.
  unfold fadeAll. rewrite imap_cons. cbn [foldl fst snd].
  rewrite Nat.add_0_r. f_equal. apply imap_ext. intros i y _. simpl. f_equal. lia.
Qed.

Lemma animate_fold_dom off l s :
  dom (foldl (λ s ie,
                let s := update_node ie.2 (classList_add "fade-in") s in
                update_node ie.2 (set_animationDelay (ie.1 * CONFIG.ANIMATION_DELAY)) s)
             s (imap (λ i x, (off + i, x)) l))
  = fadeAll off l (dom s).
Proof.
  revert s off. induction l as [|x l IH]; intros s off; [done|].
  rewrite fadeAll_cons, imap_cons. cbn [foldl fst snd].
  rewrite (imap_ext _ (λ i y, (S off + i, y))) by (intros; simpl; f_equal; lia).
  rewrite IH. cbn [update_node set_dom dom].
  by rewrite list_alter_alter_eq, Nat.add_0_r.
Qed.

Lemma animateIntro_dom s :
  dom (animateIntro s) = fadeAll 0 (querySelectorAll_classes fadeSelectors s) (dom s).
Proof. unfold animateIntro. cbv zeta. apply (animate_fold_dom 0). Qed.

Lemma fadeAll_other off l d n : n ∉ l → fadeAll off l d !! n = d !! n.
Proof.
  revert off d. induction l as [|x l IH]; intros off d Hn; [done|].
  apply not_elem_of_cons in Hn as [Hx Hn].
  rewrite fadeAll_cons, IH by done. by apply list_lookup_alter_ne.
Qed.

Lemma fadeAll_selected off l d k n :
  NoDup l → l !! k = Some n → fadeAll off l d !! n = fadeIn (off + k) <$> d !! n.
Proof.
  revert off d k. induction l as [|x l IH]; intros off d k Hnd Hk; [done|].
  apply NoDup_cons in Hnd as [Hx Hnd]. rewrite fadeAll_cons.
  destruct k as [|k]; simpl in Hk.
  - injection Hk as ->. rewrite fadeAll_other by done.
    by rewrite list_lookup_alter_eq, Nat.add_0_r.
  - rewrite (IH _ _ k) by done.
    assert (x ≠ n) by (intros ->; apply Hx; by apply list_elem_of_lookup_2 in Hk).
    rewrite list_lookup_alter_ne by done. do 2 f_equal. lia.
Qed.

Lemma animateIntro_selected s k n :
  querySelectorAll_classes fadeSelectors s !! k = Some n →
  ∃ el, dom s !! n = Some el
        ∧ has_some_class fadeSelectors el = true
        ∧ dom (animateIntro s) !! n = Some (fadeIn k el).
Proof.
  intros Hk.
  pose proof (list_elem_of_lookup_2 _ _ _ Hk) as Hin.
  apply indices_from_elem in Hin as (el & _ & Hel & Hp).
  rewrite Nat.sub_0_r in Hel. exists el. split_and!; [done..|].
  rewrite animateIntro_dom, (fadeAll_selected 0 _ _ k n); [|apply indices_from_NoDup|done].
  by rewrite Hel.
Qed.

(** C9: the intro animation takes the blocks matched by its selectors in
    document order and gives the block of index k the animation delay k times
    120 ms and the fade-in class; so the first delay is zero and the delays
    grow strictly along the document; other elements are left alone. *)
Theorem animateIntro_staggered (s : State) :
  let sel := querySelectorAll_classes fadeSelectors s in
  CONFIG.ANIMATION_DELAY = 120
  ∧ (∀ n, n ∈ sel ↔ ∃ el, dom s !! n = Some el ∧ has_some_class fadeSelectors el = true)
  ∧ (∀ j k n m, j < k → sel !! j = Some n → sel !! k = Some m → n < m)
  ∧ (∀ k n, sel !! k = Some n →
       delayOf (animateIntro s) n = Some (k * 120)
       ∧ ∃ el, dom (animateIntro s) !! n = Some el ∧ "fade-in" ∈ el_classes el)
  ∧ (∀ n, sel !! 0 = Some n → delayOf (animateIntro s) n = Some 0)
  ∧ (∀ j k n m dj dk, j < k → sel !! j = Some n → sel !! k = Some m →
       delayOf (animateIntro s) n = Some dj → delayOf (animateIntro s) m = Some dk →
       dj < dk)
  ∧ (∀ n, n ∉ sel → dom (animateIntro s) !! n = dom s !! n).
Proof.
  intros sel.
  assert (Hdelay : ∀ k n, sel !! k = Some n →
            delayOf (animateIntro s) n = Some (k * 120)
            ∧ ∃ el, dom (animateIntro s) !! n = Some el ∧ "fade-in" ∈ el_classes el).
  { intros k n Hk. destruct (animateIntro_selected s k n Hk) as (el & _ & _ & Hd).
    unfold delayOf. rewrite Hd. split; [done|].
    exists (fadeIn k el). split; [done|]. apply fadeIn_effect. }
  split_and!; [done| | |done| | |].
  - intros n. unfold sel, querySelectorAll_classes. rewrite indices_from_elem.
    split; intros (el & H); exists el.
    + destruct H as (_ & Hel & Hp). by rewrite Nat.sub_0_r in Hel.
    + destruct H as (Hel & Hp). rewrite Nat.sub_0_r. split_and!; [lia|done..].
  - intros j k n m. apply indices_from_increasing.
  - intros n Hn. by destruct (Hdelay 0 n Hn) as [-> _].
  - intros j k n m dj dk Hjk Hj Hk.
    destruct (Hdelay j n Hj) as [-> _]. destruct (Hdelay k m Hk) as [-> _].
    intros [= <-] [= <-]. lia.
  - intros n Hn. rewrite animateIntro_dom. by apply fadeAll_other.
Qed.

Lemma animateIntro_staggered_witness :
  delayOf (animateIntro examplePage) 5 = Some 240
  ∧ 3 < 4.
Proof.
  pose proof (animateIntro_staggered examplePage) as H. cbv zeta in H.
  destruct H as (_ & _ & Hord & Hdelay & _).
  split.
  - apply (Hdelay 2 5). vm_compute; reflexivity.
  - apply (Hord 0 1 3 4); [lia | vm_compute; reflexivity..].
Defined.

(** ** Initialisation guard *)

Lemma init_after_load s :
  isInitialized s = true → init s = console_write WarnAlreadyInitialized s.
Proof. unfold init. by intros ->. Qed.

Lemma init_before_load s :
  isInitialized s = false →
  init s = addEventListener Document DOMContentLoaded OnDOMContentLoaded s.
Proof. unfold init. by intros ->. Qed.

(** Once the handler of DOMContentLoaded has run, further calls of [init]
    only log a warning. *)
Lemma init_guard_after_load page acts :
  listeners page = [] → Forall postLoad acts →
  step CallInit (run acts (loaded page))
  = console_write WarnAlreadyInitialized (run acts (loaded page)).
Proof.
  intros Hl Hacts. cbn [step]. apply init_after_load.
  destruct (run_sameWiring page Hl acts Hacts) as [_ ->].
  by rewrite (loaded_initialize page Hl), isInitialized_initialize.
Qed.

(** C5 fails on the code: the flag is only set by the handler of
    DOMContentLoaded, so a second call of [init] before that event passes the
    guard without a warning and registers the handler again.  On the example
    page the event then initialises twice: two log lines, every listener
    twice, and a single click on the theme button toggles the theme twice. *)
Theorem init_twice_before_load :
  let s := run [CallInit; Fire Document (plain DOMContentLoaded)]
               (new_WindowsHistoryApp examplePage) in
  console s = [LogInitialized; LogInitialized]
  ∧ handlers Document DOMContentLoaded s = [OnDOMContentLoaded; OnDOMContentLoaded]
  ∧ handlers (Node 0) click s = [OnThemeClick; OnThemeClick]
  ∧ length (listeners s) = 2 * length (listeners (loaded examplePage))
  ∧ currentTheme s = "light"
  ∧ currentTheme (step (Fire (Node 0) (plain click)) s) = "light"
  ∧ currentTheme (step (Fire (Node 0) (plain click)) (loaded examplePage)) = "dark".
Proof. vm_compute. done. Qed.


(** ** System changes after a toggle, on a loaded page *)

Lemma handlersOf_none t ty rs :
  (∀ r, r ∈ rs → listens t ty r = false) → handlersOf t ty rs = [].
Proof.
  intros H. induction rs as [|r rs IH]; [done|].
  rewrite handlersOf_cons, (H r), IH; [done| |by left].
  intros r' Hr'. apply H. by right.
Qed.

Lemma wiring_target r s :
  r ∈ wiring s → reg_target r = Window ∨ ∃ n, reg_target r = Node n.
Proof.
  unfold wiring. rewrite !elem_of_app. intros [H|[H|[H|[H|H]]]].
  - destruct (themeBtn s); [|by apply elem_of_nil in H].
    apply list_elem_of_singleton in H as ->. right. by eexists.
  - destruct (homeBtn s); [|by apply elem_of_nil in H].
    apply list_elem_of_singleton in H as ->. right. by eexists.
  - destruct (searchBtn s); [|by apply elem_of_nil in H].
    destruct (searchSection s); [|by apply elem_of_nil in H].
    apply list_elem_of_singleton in H as ->. right. by eexists.
  - destruct (scrollTopBtn s); [|by apply elem_of_nil in H].
    repeat (apply elem_of_cons in H as [-> | H]; [by (left + (right; eexists))|]).
    by apply elem_of_nil in H.
  - destruct (searchForm s); [|by apply elem_of_nil in H].
    apply list_elem_of_singleton in H as ->. right. by eexists.
Qed.

(** On a loaded page the colour-scheme query has the one listener that
    [setupTheme] registered. *)
Lemma handlers_loaded_change page :
  listeners page = [] →
  handlers ColorSchemeQuery change (loaded page) = [OnSystemTheme].
Proof.
  intros Hl. unfold handlers.
  pose proof (loaded_wiringView page Hl) as Hw.
  apply wiringView_split in Hw as (_ & _ & _ & _ & _ & _ & -> & _).
  rewrite !handlersOf_app, handlersOf_hoverRegs by done.
  rewrite (handlersOf_none _ _ (wiring _)).
  - rewrite !handlersOf_cons, !handlersOf_nil.
    unfold systemThemeReg, domContentLoadedReg. rewrite listens_refl.
    unfold listens. cbn [reg_target reg_type reg_listener].
    by rewrite (bool_decide_eq_false_2 (Document = ColorSchemeQuery)).
  - intros r Hr. unfold listens.
    rewrite (bool_decide_eq_false_2 (reg_target r = _)); [done|].
    intros Ht. by destruct (wiring_target r _ Hr) as [? | [? ?]]; congruence.
Qed.

Lemma loaded_run page acts :
  run acts (loaded page)
  = run (Fire Document (plain DOMContentLoaded) :: acts) (new_WindowsHistoryApp page).
Proof. reflexivity. Qed.

Lemma run_app acts1 acts2 s : run (acts1 ++ acts2) s = run acts2 (run acts1 s).
Proof. unfold run. by rewrite foldl_app. Qed.

(** C3, as amended: on a loaded page whose storage can be read and written,
    once the user has clicked the theme button no later system colour-scheme
    change alters anything but the media query itself, whatever happens in
    between; in general the handler of the change leaves the state alone
    when the read of the theme key yields a non-empty value, and applies the
    system theme, without storing it, when the read yields nothing (key
    absent, empty value, or a failing read). *)
Theorem system_change_after_toggle (page : State) (acts1 acts2 : list action)
    (n : nat) (dark : bool) :
  listeners page = [] → Forall postLoad acts1 → Forall postLoad acts2 →
  getItem_throws (localStorage page) = false →
  setItem_throws (localStorage page) = false →
  getElementById "themeToggle" page = Some n →
  let s := run acts2 (step (Fire (Node n) (plain click)) (run acts1 (loaded page))) in
  step (SystemTheme dark) s = set_prefersDark dark s
  ∧ currentTheme (step (SystemTheme dark) s) = currentTheme s
  ∧ dataTheme (step (SystemTheme dark) s) = dataTheme s
  ∧ themeBtnLabel (step (SystemTheme dark) s) = themeBtnLabel s
  ∧ (∀ s0 e, falsy (readStoredTheme s0) = false → handleSystemThemeChange e s0 = s0)
  ∧ (∀ s0 e, falsy (readStoredTheme s0) = true →
       currentTheme (handleSystemThemeChange e s0) = eventTheme e
       ∧ dataTheme (handleSystemThemeChange e s0) = Some (eventTheme e)
       ∧ localStorage (handleSystemThemeChange e s0) = localStorage s0).
Proof.
  intros Hl Ha1 Ha2 Hg Hs Hn s.
  set (s1 := run acts1 (loaded page)).
  (* the click runs toggleTheme *)
  assert (Hclick : step (Fire (Node n) (plain click)) s1 = toggleTheme s1).
  { destruct (run_wiring page Hl acts1 Ha1) as (Hh & _). fold s1 in Hh.
    rewrite step_Fire. cbn [plain ev_type].
    rewrite (Hh (Node n) click), (handlers_loaded page n click Hl) by auto.
    rewrite (getElementById_other "themeToggle" "homeBtn" page n),
      (getElementById_other "themeToggle" "scrollToSearch" page n),
      (getElementById_other "themeToggle" "scrollTopBtn" page n) by done.
    rewrite Hn. decide_types. by rewrite run_listeners_one. }
  (* the storage of [s1] works as that of the page *)
  assert (Hflags : getItem_throws (localStorage s1) = false
                   ∧ setItem_throws (localStorage s1) = false).
  { unfold s1. rewrite loaded_run.
    destruct (storage_ok_run (localStorage page) (Fire Document (plain DOMContentLoaded) :: acts1)
                (new_WindowsHistoryApp page)) as (Hg' & Hs' & _).
    { rewrite new_WindowsHistoryApp_storage. apply theme_writes_only_refl. }
    by rewrite Hg', Hs'. }
  destruct Hflags as [Hg1 Hs1].
  (* the listeners are those of the loaded page *)
  assert (Hs_eq : s = run (acts1 ++ [Fire (Node n) (plain click)] ++ acts2) (loaded page)).
  { by rewrite !run_app. }
  assert (Hh : handlers ColorSchemeQuery change s = [OnSystemTheme]).
  { rewrite Hs_eq.
    destruct (run_wiring page Hl (acts1 ++ [Fire (Node n) (plain click)] ++ acts2))
      as (Hh & _).
    { rewrite !Forall_app. split_and!; [done| |done]. by repeat constructor. }
    rewrite (Hh ColorSchemeQuery change). by apply handlers_loaded_change. }
  assert (Hstep : step (SystemTheme dark) s = set_prefersDark dark s).
  { cbn [step]. rewrite dispatchEvent_handlers. cbn [ev_type].
    rewrite (handlers_listeners _ _ s (set_prefersDark dark s)), Hh by done.
    rewrite run_listeners_one. cbn [run_listener fst].
    apply handleSystemThemeChange_effect.
    change (readStoredTheme (set_prefersDark dark s)) with (readStoredTheme s).
    unfold s. fold s1. rewrite Hclick.
    destruct (stored_after_toggle s1 acts2 Hg1 Hs1) as (t & Hv & ->).
    by apply validTheme_truthy. }
  rewrite Hstep. split_and!; [done..| |]; intros s0 e; apply handleSystemThemeChange_effect.
Qed.

Lemma system_change_after_toggle_witness :
  currentTheme
    (step (SystemTheme false)
       (run [Scroll 400] (step (Fire (Node 0) (plain click)) (run [] (loaded examplePage)))))
  = "dark".
Proof.
  pose proof (system_change_after_toggle examplePage [] [Scroll 400] 0 false) as H.
  cbv zeta in H. destruct H as (_ & H & _).
  - reflexivity.
  - constructor.
  - by repeat constructor.
  - reflexivity.
  - reflexivity.
  - vm_compute; reflexivity.
  - rewrite H. vm_compute. reflexivity.
Defined.


(** * Further properties of the script *)

(** ** Failure-tolerant storage access *)

(** X1: with a storage that accepts reads and writes, [safeSetStorage]
    reports success and a following [safeGetStorage] of the same key returns
    the value written, reads of other keys return what they returned before,
    and nothing is logged. *)
Theorem safeStorage_roundtrip (key value : string) (s : State) :
  getItem_throws (localStorage s) = false →
  setItem_throws (localStorage s) = false →
  (safeSetStorage key value s).1 = true
  ∧ (safeGetStorage key (safeSetStorage key value s).2).1 = Some value
  ∧ (∀ k, k ≠ key →
       (safeGetStorage k (safeSetStorage key value s).2).1 = (safeGetStorage k s).1)
  ∧ console (safeGetStorage key (safeSetStorage key value s).2).2 = console s.
Proof.
  intros Hg Hs.
  unfold safeSetStorage, safeGetStorage, localStorage_setItem, localStorage_getItem.
  rewrite Hs. cbn [fst snd localStorage set_localStorage getItem_throws items].
  rewrite Hg. cbn [fst snd console set_localStorage].
  split_and!; [done| |intros k Hk|done].
  - by rewrite lookup_insert_eq.
  - by rewrite lookup_insert_ne.
Qed.

Lemma safeStorage_roundtrip_witness :
  (safeGetStorage "site-theme" (safeSetStorage "site-theme" "dark" examplePage).2).1
  = Some "dark".
Proof.
  pose proof (safeStorage_roundtrip "site-theme" "dark" examplePage) as H.
  destruct H as (_ & H & _); [reflexivity | reflexivity | exact H].
Defined.

(** X2: when [localStorage.setItem] throws, [safeSetStorage] reports failure,
    logs one warning and changes nothing else, so every following read
    returns what it returned before; when [localStorage.getItem] throws,
    [safeGetStorage] returns null for every key, whatever is stored, logs
    one warning and leaves the storage alone. *)
Theorem safeStorage_failure (key value : string) (s : State) :
  (setItem_throws (localStorage s) = true →
     safeSetStorage key value s = (false, console_write WarnStorageSetFailed s)
     ∧ ∀ k, (safeGetStorage k (safeSetStorage key value s).2).1 = (safeGetStorage k s).1)
  ∧ (getItem_throws (localStorage s) = true →
     safeGetStorage key s = (None, console_write WarnStorageGetFailed s)
     ∧ localStorage (safeGetStorage key s).2 = localStorage s).
Proof.
  unfold safeSetStorage, safeGetStorage, localStorage_setItem, localStorage_getItem.
  split; intros H; rewrite H; [|done].
  split; [done|]. intros k. cbn [snd localStorage console_write set_console].
  by destruct (getItem_throws (localStorage s)).
Qed.

Lemma safeStorage_failure_witness :
  safeSetStorage "site-theme" "dark" blockedStoragePage
  = (false, console_write WarnStorageSetFailed blockedStoragePage)
  ∧ (safeGetStorage "site-theme" blockedStoragePage).1 = None.
Proof.
  pose proof (safeStorage_failure "site-theme" "dark" blockedStoragePage) as [H1 H2].
  split.
  - apply H1. reflexivity.
  - destruct H2 as [H2 _]; [reflexivity|]. by rewrite H2.
Defined.

(** ** Accessibility attributes *)

Lemma set_dom_dom s : set_dom (dom s) s = s.
Proof. by destruct s. Qed.

Lemma setAccessibilityAttributes_alter n attrs s :
  setAccessibilityAttributes n attrs s
  = set_dom (alter (setAttributes attrs) n (dom s)) s.
Proof.
  unfold setAccessibilityAttributes, setAttributes.
  revert s. induction attrs as [|kv attrs IH]; intros s.
  - cbn [foldl]. by rewrite list_alter_id, set_dom_dom.
  - cbn [foldl]. rewrite IH. unfold update_node. cbn [dom set_dom].
    by rewrite list_alter_alter_eq.
Qed.

Lemma setAttributes_fields attrs el :
  el_id (setAttributes attrs el) = el_id el
  ∧ el_classes (setAttributes attrs el) = el_classes el
  ∧ el_textContent (setAttributes attrs el) = el_textContent el
  ∧ el_value (setAttributes attrs el) = el_value el
  ∧ el_animationDelay (setAttributes attrs el) = el_animationDelay el.
Proof.
  unfold setAttributes. revert el.
  induction attrs as [|kv attrs IH]; intros el; [done|].
  cbn [foldl]. by destruct (IH (setAttribute kv.1 kv.2 el)) as (-> & -> & -> & -> & ->).
Qed.

Lemma setAttributes_other attrs el k :
  k ∉ attrs.*1 → el_attrs (setAttributes attrs el) !! k = el_attrs el !! k.
Proof.
  unfold setAttributes. revert el.
  induction attrs as [|[k0 v0] attrs IH]; intros el Hk; [done|].
  cbn [foldl fst snd]. csimpl in Hk. apply not_elem_of_cons in Hk as [Hne Hk].
  rewrite IH by done. by apply lookup_insert_ne.
Qed.

Lemma setAttributes_set attrs el k v :
  NoDup attrs.*1 → (k, v) ∈ attrs → el_attrs (setAttributes attrs el) !! k = Some v.
Proof.
  revert el. induction attrs as [|[k0 v0] attrs IH]; intros el Hnd Hin.
  - by apply elem_of_nil in Hin.
  - csimpl in Hnd. apply NoDup_cons in Hnd as [Hk0 Hnd].
    apply elem_of_cons in Hin as [[= -> ->] | Hin].
    + change (setAttributes ((k0, v0) :: attrs) el)
        with (setAttributes attrs (setAttribute k0 v0 el)).
      rewrite setAttributes_other by done. apply lookup_insert_eq.
    + by apply (IH (setAttribute k0 v0 el)).
Qed.

(** X3: [setAccessibilityAttributes], given an existing element and an
    object of accessibility attributes (distinct keys, each an aria-* or
    data-* name in lower case), leaves on that element every listed attribute
    with its value, keeps its other attributes, its id, classes and text, and
    touches no other element. *)
Theorem setAccessibilityAttributes_sets (n : nat) (attrs : list (string * string))
    (s : State) (el : Element) :
  dom s !! n = Some el → NoDup attrs.*1 →
  Forall (λ k, plainAttributeName k = true) attrs.*1 →
  ∃ el', dom (setAccessibilityAttributes n attrs s) !! n = Some el'
    ∧ (∀ k v, (k, v) ∈ attrs → el_attrs el' !! k = Some v)
    ∧ (∀ k, k ∉ attrs.*1 → el_attrs el' !! k = el_attrs el !! k)
    ∧ el_id el' = el_id el ∧ el_classes el' = el_classes el
    ∧ el_textContent el' = el_textContent el
    ∧ (∀ m, m ≠ n → dom (setAccessibilityAttributes n attrs s) !! m = dom s !! m).
Proof.
  intros Hel Hnd _. exists (setAttributes attrs el).
  rewrite setAccessibilityAttributes_alter. cbn [dom set_dom].
  destruct (setAttributes_fields attrs el) as (Hi & Hc & Ht & _).
  split_and!; [|by intros; apply setAttributes_set|by intros; apply setAttributes_other
               |done..|].
  - by rewrite list_lookup_alter_eq, Hel.
  - intros m Hm. by apply list_lookup_alter_ne.
Qed.

Lemma setAccessibilityAttributes_sets_witness :
  ∃ el', dom (setAccessibilityAttributes 9
                [("aria-label", "top"); ("aria-hidden", "false")] examplePage) !! 9
         = Some el'
    ∧ el_attrs el' !! "aria-hidden" = Some "false".
Proof.
  destruct (setAccessibilityAttributes_sets 9
              [("aria-label", "top"); ("aria-hidden", "false")] examplePage
              (blank (Some "scrollTopBtn") []))
    as (el' & Hel & Hset & _).
  - reflexivity.
  - csimpl. apply NoDup_cons.
    split; [by intros ?%list_elem_of_singleton | apply NoDup_singleton].
  - csimpl. repeat constructor.
  - exists el'. split; [done|]. apply Hset. right. by left.
Defined.

(** ** Class lists and the scroll-to-top button *)

Lemma elem_of_classList_add c c' el :
  c' ∈ el_classes (classList_add c el) ↔ c' = c ∨ c' ∈ el_classes el.
Proof.
  unfold classList_add, classList_contains. case_bool_decide; cbn.
  - split; [by right | by intros [-> | ?]].
  - rewrite elem_of_app. split.
    + intros [? | ->%list_elem_of_singleton]; auto.
    + intros [-> | ?]; [right; by left | by left].
Qed.

Lemma elem_of_classList_remove c c' el :
  c' ∈ el_classes (classList_remove c el) ↔ c' ≠ c ∧ c' ∈ el_classes el.
Proof. unfold classList_remove. cbn. by rewrite list_elem_of_filter. Qed.

Lemma classList_add_idemp c el :
  classList_add c (classList_add c el) = classList_add c el.
Proof.
  assert (H : classList_contains c (classList_add c el) = true).
  { apply bool_decide_eq_true_2, elem_of_classList_add. by left. }
  generalize dependent (classList_add c el). intros el' H.
  unfold classList_add. by rewrite H.
Qed.

Lemma filter_idemp {A} (P : A → Prop) `{∀ x, Decision (P x)} (l : list A) :
  filter P (filter P l) = filter P l.
Proof.
  induction l as [|x l IH]; [done|]. rewrite filter_cons.
  case_decide; [|done]. rewrite filter_cons, decide_True by done. by f_equal.
Qed.

Lemma classList_remove_idemp c el :
  classList_remove c (classList_remove c el) = classList_remove c el.
Proof. unfold classList_remove. cbn. by rewrite filter_idemp. Qed.

Lemma set_dom_set_dom d d' s : set_dom d (set_dom d' s) = set_dom d s.
Proof. reflexivity. Qed.

Lemma update_node_idemp n f s :
  (∀ x, f (f x) = f x) → update_node n f (update_node n f s) = update_node n f s.
Proof.
  intros Hf. unfold update_node. cbn [dom set_dom].
  rewrite set_dom_set_dom, list_alter_alter_eq.
  rewrite (list_alter_ext (f ∘ f) f (dom s) (dom s) n); [done| |done].
  intros x _. apply Hf.
Qed.

Lemma toggleScrollButton_effect (s : State) (b : nat) (el : Element) :
  scrollTopBtn s = Some b → dom s !! b = Some el →
  ∃ el', dom (toggleScrollButton s) !! b = Some el'
    ∧ ("visible" ∈ el_classes el' ↔ 300 < scrollY s)
    ∧ (∀ c, c ≠ "visible" → c ∈ el_classes el' ↔ c ∈ el_classes el)
    ∧ (∀ m, m ≠ b → dom (toggleScrollButton s) !! m = dom s !! m).
Proof.
  intros Hb Hel. unfold toggleScrollButton. rewrite Hb. cbv zeta.
  change CONFIG.SCROLL_THRESHOLD with 300.
  destruct (300 <? scrollY s) eqn:E.
  - apply Nat.ltb_lt in E.
    exists (classList_add "visible" el). cbn [update_node dom set_dom].
    split_and!.
    + by rewrite list_lookup_alter_eq, Hel.
    + rewrite elem_of_classList_add. split; [done | by left].
    + intros c Hc. rewrite elem_of_classList_add.
      split; [by intros [? | ?] | by right].
    + intros m Hm. by apply list_lookup_alter_ne.
  - apply Nat.ltb_ge in E.
    exists (classList_remove "visible" el). cbn [update_node dom set_dom].
    split_and!.
    + by rewrite list_lookup_alter_eq, Hel.
    + rewrite elem_of_classList_remove. split; [by intros [? _] | lia].
    + intros c Hc. rewrite elem_of_classList_remove.
      split; [by intros [_ ?] | done].
    + intros m Hm. by apply list_lookup_alter_ne.
Qed.

Lemma toggleScrollButton_idemp s :
  toggleScrollButton (toggleScrollButton s) = toggleScrollButton s.
Proof.
  unfold toggleScrollButton. destruct (scrollTopBtn s) as [b|] eqn:Hb.
  - cbv zeta. destruct (_ <? scrollY s) eqn:E;
      cbn [update_node scrollTopBtn scrollY set_dom]; rewrite Hb, E.
    + apply (update_node_idemp b (classList_add "visible") s), classList_add_idemp.
    + apply (update_node_idemp b (classList_remove "visible") s),
        classList_remove_idemp.
  - by rewrite Hb.
Qed.

(** X4: when the page has a scroll-to-top button, [toggleScrollButton]
    leaves it with the class "visible" exactly when the window is scrolled
    by more than 300 pixels; its other classes and the other elements are
    kept, and doing it again changes nothing. *)
Theorem toggleScrollButton_visible (s : State) (b : nat) (el : Element) :
  scrollTopBtn s = Some b → dom s !! b = Some el →
  (∃ el', dom (toggleScrollButton s) !! b = Some el'
     ∧ ("visible" ∈ el_classes el' ↔ 300 < scrollY s)
     ∧ (∀ c, c ≠ "visible" → c ∈ el_classes el' ↔ c ∈ el_classes el)
     ∧ (∀ m, m ≠ b → dom (toggleScrollButton s) !! m = dom s !! m))
  ∧ toggleScrollButton (toggleScrollButton s) = toggleScrollButton s.
Proof.
  intros Hb Hel. split; [by apply toggleScrollButton_effect|].
  apply toggleScrollButton_idemp.
Qed.

Lemma toggleScrollButton_visible_witness :
  ∃ el', dom (toggleScrollButton (set_scrollY 301 (loaded examplePage))) !! 9 = Some el'
    ∧ "visible" ∈ el_classes el'.
Proof.
  destruct (toggleScrollButton_visible (set_scrollY 301 (loaded examplePage)) 9
              (setAttributes [("aria-label", "Вернуться к началу страницы");
                              ("aria-hidden", "false")]
                 (blank (Some "scrollTopBtn") [])))
    as [(el' & Hel & Hvis & _) _].
  - vm_compute; reflexivity.
  - vm_compute; reflexivity.
  - exists el'. split; [done|]. apply Hvis. vm_compute. lia.
Defined.

(** ** Debounced scroll handling *)

Lemma listens_window_node ty b ty' l :
  listens Window ty (mkRegistration (Node b) ty' l) = false.
Proof. reflexivity. Qed.

Lemma timers_toggleScrollButton s : timers (toggleScrollButton s) = timers s.
Proof.
  unfold toggleScrollButton. destruct (scrollTopBtn s); [|done].
  by destruct (_ <? _).
Qed.

Lemma handlersOf_opt_other t (o : option nat) ty ty' l :
  (∀ b, t ≠ Node b) →
  handlersOf t ty match o with Some b => [mkRegistration (Node b) ty' l] | None => [] end
  = [].
Proof.
  intros Ht. apply handlersOf_none. intros r Hr.
  destruct o as [b|]; [|by apply elem_of_nil in Hr].
  apply list_elem_of_singleton in Hr as ->.
  unfold listens. cbn [reg_target].
  rewrite bool_decide_eq_false_2; [done|]. intros <-. by apply (Ht b).
Qed.

Lemma handlersOf_wiring_scroll s b :
  scrollTopBtn s = Some b → ∃ k, handlersOf Window scroll (wiring s) = [OnScroll k].
Proof.
  intros Hb. unfold wiring. rewrite Hb.
  rewrite !handlersOf_app, !handlersOf_opt_other by done.
  assert (handlersOf Window scroll
            match searchBtn s, searchSection s with
            | Some b0, Some _ => [mkRegistration (Node b0) click OnSearchClick]
            | _, _ => []
            end = []) as ->.
  { by destruct (searchBtn s), (searchSection s). }
  rewrite !handlersOf_cons, handlersOf_nil, listens_refl.
  rewrite !listens_window_node. cbn [app reg_listener]. by eexists.
Qed.

(** On a loaded page with a scroll-to-top button the window has one scroll
    listener, a debounced one. *)
Lemma handlers_loaded_scroll page b :
  listeners page = [] → getElementById "scrollTopBtn" page = Some b →
  ∃ k, handlers Window scroll (loaded page) = [OnScroll k].
Proof.
  intros Hl Hb. unfold handlers.
  pose proof (loaded_wiringView page Hl) as Hw.
  apply wiringView_split in Hw as (_ & _ & _ & _ & _ & _ & -> & _).
  destruct (setupElements_new_fields page) as (_ & _ & _ & _ & Hst & _).
  rewrite Hb in Hst.
  destruct (handlersOf_wiring_scroll _ b Hst) as [k Hk].
  exists k.
  rewrite !handlersOf_app, handlersOf_hoverRegs, Hk by done.
  by rewrite (handlersOf_none Window scroll [domContentLoadedReg]),
    (handlersOf_none Window scroll [systemThemeReg])
    by (by intros r ->%list_elem_of_singleton).
Qed.

Lemma set_scrollY_set_timers y t y0 s :
  set_scrollY y (set_timers t (set_scrollY y0 s)) = set_timers t (set_scrollY y s).
Proof. reflexivity. Qed.

Lemma set_timers_set_timers t t' s : set_timers t (set_timers t' s) = set_timers t s.
Proof. reflexivity. Qed.

Lemma filter_ne_snoc (k : nat) (t : list nat) :
  filter (λ x, x ≠ k) (filter (λ x, x ≠ k) t ++ [k]) = filter (λ x, x ≠ k) t.
Proof.
  rewrite filter_app, filter_idemp, filter_cons, decide_False by (by intros ?).
  by rewrite filter_nil, app_nil_r.
Qed.

(** A scroll event where the window has the one debounced listener: the
    pending timer, if any, is cleared and a new one is set. *)
Lemma step_Scroll k y s :
  handlers Window scroll s = [OnScroll k] →
  step (Scroll y) s
  = set_timers (filter (λ x, x ≠ k) (timers s) ++ [k]) (set_scrollY y s).
Proof.
  intros Hh. cbn [step]. rewrite dispatchEvent_handlers. cbn [ev_type].
  rewrite (handlers_listeners _ _ s (set_scrollY y s)), Hh by done.
  by rewrite run_listeners_one.
Qed.

Lemma run_Scroll_burst k ys y s :
  handlers Window scroll s = [OnScroll k] →
  run (Scroll <$> (ys ++ [y])) s
  = set_timers (filter (λ x, x ≠ k) (timers s) ++ [k]) (set_scrollY y s).
Proof.
  revert s. induction ys as [|y0 ys IH]; intros s Hh.
  - cbn [app fmap list_fmap run foldl]. by apply step_Scroll.
  - change (run (Scroll <$> (y0 :: ys) ++ [y]) s)
      with (run (Scroll <$> ys ++ [y]) (step (Scroll y0) s)).
    rewrite (step_Scroll k y0 s Hh), IH by (by rewrite <- Hh).
    cbn [timers set_timers]. by rewrite filter_ne_snoc, set_scrollY_set_timers,
      set_timers_set_timers.
Qed.

(** X5: on a loaded page with a scroll-to-top button, any burst of scroll
    events leaves the page as it was apart from the scroll offset and one
    pending timer; when that timer fires, the visibility of the button is
    recomputed once, from the last offset: it is visible exactly when that
    offset exceeds 300, however many events the burst had. *)
Theorem scroll_burst_coalesced (page : State) (b : nat) :
  listeners page = [] → getElementById "scrollTopBtn" page = Some b →
  ∃ k, ∀ acts ys y, Forall postLoad acts →
    let s := run acts (loaded page) in
    let burst := run (Scroll <$> (ys ++ [y])) s in
    burst = set_timers (filter (λ x, x ≠ k) (timers s) ++ [k]) (set_scrollY y s)
    ∧ step (Timeout k) burst
      = toggleScrollButton (set_timers (filter (λ x, x ≠ k) (timers s)) (set_scrollY y s))
    ∧ (k ∉ timers (step (Timeout k) burst))
    ∧ (∃ el, dom (step (Timeout k) burst) !! b = Some el
             ∧ ("visible" ∈ el_classes el ↔ 300 < y)).
Proof.
  intros Hl Hb. destruct (handlers_loaded_scroll page b Hl Hb) as [k Hk].
  exists k. intros acts ys y Hacts s burst.
  destruct (run_wiring page Hl acts Hacts) as (Hh & _ & _ & _ & _ & Hst & _ & _ & Hlen).
  fold s in Hh, Hst, Hlen.
  assert (Hhs : handlers Window scroll s = [OnScroll k]) by (by rewrite (Hh Window scroll)).
  assert (Hburst : burst
            = set_timers (filter (λ x, x ≠ k) (timers s) ++ [k]) (set_scrollY y s))
    by (by apply run_Scroll_burst).
  assert (Hfire : step (Timeout k) burst
            = toggleScrollButton
                (set_timers (filter (λ x, x ≠ k) (timers s)) (set_scrollY y s))).
  { rewrite Hburst. cbn [step timers set_timers].
    rewrite bool_decide_eq_true_2 by (apply elem_of_app; right; by left).
    by rewrite filter_ne_snoc, set_timers_set_timers. }
  rewrite Hb in Hst.
  apply getElementById_Some in Hb as (el0 & Hel0 & _).
  apply lookup_lt_Some in Hel0. rewrite <- Hlen in Hel0.
  apply lookup_lt_is_Some_2 in Hel0 as [el Hel].
  destruct (toggleScrollButton_effect
              (set_timers (filter (λ x, x ≠ k) (timers s)) (set_scrollY y s)) b el)
    as (el' & Hel' & Hvis & _); [done..|].
  split_and!; [done | done | | ].
  - rewrite Hfire, timers_toggleScrollButton. cbn [timers set_timers].
    rewrite list_elem_of_filter. by intros [? _].
  - rewrite Hfire. by exists el'.
Qed.

Lemma scroll_burst_coalesced_witness :
  ∃ k, "visible" ∈
         default [] (el_classes <$>
           dom (step (Timeout k) (run (Scroll <$> ([10; 500; 20] ++ [301]))
                                      (run [] (loaded examplePage)))) !! 9).
Proof.
  destruct (scroll_burst_coalesced examplePage 9) as [k H].
  - reflexivity.
  - vm_compute; reflexivity.
  - exists k. specialize (H [] [10; 500; 20] 301 (Forall_nil_2 _)). cbv zeta in H.
    destruct H as (_ & _ & _ & el & -> & Hvis). cbn. apply Hvis. lia.
Defined.

(** ** Hover effects *)

Lemma indices_from_alter {A} (p : A → bool) (f : A → A) off n (l : list A) :
  (∀ x, p (f x) = p x) → indices_from p off (alter f n l) = indices_from p off l.
Proof.
  intros Hf. revert off n. induction l as [|x l IH]; intros off [|n]; [done..| |].
  - cbn [alter list_alter indices_from]. by rewrite Hf.
  - change (alter f (S n) (x :: l)) with (x :: alter f n l).
    cbn [indices_from]. by rewrite IH.
Qed.

Lemma has_some_class_classes cs el el' :
  el_classes el' = el_classes el → has_some_class cs el' = has_some_class cs el.
Proof. intros H. unfold has_some_class, classList_contains. by rewrite H. Qed.

Lemma querySelectorAll_classes_setupElements cs s :
  querySelectorAll_classes cs (setupElements s) = querySelectorAll_classes cs s.
Proof.
  unfold setupElements. cbn [scrollTopBtn set_elements].
  destruct (getElementById "scrollTopBtn" s) as [b|]; [|done].
  rewrite setAccessibilityAttributes_alter. unfold querySelectorAll_classes.
  cbn [dom set_dom set_elements]. apply indices_from_alter.
  intros x. apply has_some_class_classes, setAttributes_fields.
Qed.

Lemma handlersOf_hoverRegs_node n ty blocks :
  NoDup blocks → ty = mouseenter ∨ ty = mouseleave →
  handlersOf (Node n) ty (hoverRegs blocks)
  = if bool_decide (n ∈ blocks)
    then [if bool_decide (ty = mouseenter) then OnMouseenter n else OnMouseleave n]
    else [].
Proof.
  intros Hnd Hty. induction blocks as [|b blocks IH].
  - rewrite bool_decide_eq_false_2; [done|]. by intros ?%elem_of_nil.
  - apply NoDup_cons in Hnd as [Hb Hnd].
    change (hoverRegs (b :: blocks))
      with ([mkRegistration (Node b) mouseenter (OnMouseenter b);
             mkRegistration (Node b) mouseleave (OnMouseleave b)] ++ hoverRegs blocks).
    rewrite handlersOf_app, !handlersOf_cons, handlersOf_nil, !listens_node, IH by done.
    cbn [reg_listener].
    destruct (decide (b = n)) as [->|Hne].
    + rewrite (bool_decide_eq_true_2 (n = n)) by done.
      rewrite (bool_decide_eq_false_2 (n ∈ blocks)) by done.
      rewrite (bool_decide_eq_true_2 (n ∈ n :: blocks)) by (by left).
      by destruct Hty as [-> | ->].
    + rewrite (bool_decide_eq_false_2 (b = n)) by done. cbn [andb app].
      apply (f_equal (λ c : bool, if c then _ else _)).
      apply bool_decide_ext. rewrite elem_of_cons.
      split; [by right | by intros [-> | ?]].
Qed.

(** The hover listeners of a node of a loaded page. *)
Lemma handlers_loaded_hover page n ty :
  listeners page = [] → ty = mouseenter ∨ ty = mouseleave →
  handlers (Node n) ty (loaded page)
  = if bool_decide (n ∈ querySelectorAll_classes hoverSelectors page)
    then [if bool_decide (ty = mouseenter) then OnMouseenter n else OnMouseleave n]
    else [].
Proof.
  intros Hl Hty. unfold handlers.
  pose proof (loaded_wiringView page Hl) as Hw.
  apply wiringView_split in Hw as (_ & _ & _ & _ & _ & _ & -> & _).
  rewrite !handlersOf_app, handlersOf_wiring.
  rewrite querySelectorAll_classes_setupElements.
  change (querySelectorAll_classes ["content-block"; "quad-block"]
            (new_WindowsHistoryApp page))
    with (querySelectorAll_classes hoverSelectors page).
  rewrite handlersOf_hoverRegs_node by (done || apply indices_from_NoDup).
  rewrite !handlersOf_cons, !handlersOf_nil.
  unfold domContentLoadedReg, systemThemeReg.
  rewrite !listens_other_target by done.
  destruct Hty as [-> | ->]; decide_types;
    destruct (bool_decide (scrollTopBtn _ = _)); cbn [app];
    by rewrite app_nil_r.
Qed.

Lemma querySelectorAll_classes_elem cs s n el :
  dom s !! n = Some el →
  n ∈ querySelectorAll_classes cs s ↔ has_some_class cs el = true.
Proof.
  intros Hel. unfold querySelectorAll_classes. rewrite indices_from_elem.
  rewrite Nat.sub_0_r. split.
  - intros (x & _ & Hx & Hp). congruence.
  - intros Hp. exists el. split_and!; [lia|done..].
Qed.

(** X6: on a loaded page, a block that had the class content-block or
    quad-block when the page loaded gets the class is-hovered when the
    pointer enters it and loses it when the pointer leaves, its other
    classes being kept; on any other element the two events change
    nothing. *)
Theorem hover_effect (page : State) (acts : list action) (n : nat) (el : Element) :
  listeners page = [] → Forall postLoad acts → dom page !! n = Some el →
  let s := run acts (loaded page) in
  let entered := step (Fire (Node n) (plain mouseenter)) s in
  let left := step (Fire (Node n) (plain mouseleave)) entered in
  (has_some_class hoverSelectors el = true →
     entered = update_node n (classList_add "is-hovered") s
     ∧ left = update_node n (classList_remove "is-hovered") entered
     ∧ ∃ e0 e1 e2,
         dom s !! n = Some e0 ∧ dom entered !! n = Some e1 ∧ dom left !! n = Some e2
         ∧ "is-hovered" ∈ el_classes e1 ∧ ("is-hovered" ∉ el_classes e2)
         ∧ ∀ c, c ≠ "is-hovered" → c ∈ el_classes e2 ↔ c ∈ el_classes e0)
  ∧ (has_some_class hoverSelectors el = false →
     entered = s ∧ step (Fire (Node n) (plain mouseleave)) s = s).
Proof.
  intros Hl Hacts Hel s entered left.
  destruct (run_wiring page Hl acts Hacts) as (Hh & _ & _ & _ & _ & _ & _ & _ & Hlen).
  fold s in Hh, Hlen.
  pose proof (querySelectorAll_classes_elem hoverSelectors page n el Hel) as Hin.
  split; intros Hc.
  - assert (Hent : entered = update_node n (classList_add "is-hovered") s).
    { unfold entered. rewrite step_Fire. cbn [plain ev_type].
      rewrite (Hh (Node n) mouseenter), (handlers_loaded_hover page n mouseenter Hl)
        by auto.
      rewrite (bool_decide_eq_true_2 _ (proj2 Hin Hc)), bool_decide_eq_true_2 by done.
      by rewrite run_listeners_one. }
    assert (Hleft : left = update_node n (classList_remove "is-hovered") entered).
    { assert (Hacts' : Forall postLoad (acts ++ [Fire (Node n) (plain mouseenter)])).
      { apply Forall_app. split; [done|]. by repeat constructor. }
      destruct (run_wiring page Hl _ Hacts') as (Hh' & _).
      rewrite run_snoc in Hh'. fold s entered in Hh'.
      unfold left. rewrite step_Fire. cbn [plain ev_type].
      rewrite (Hh' (Node n) mouseleave), (handlers_loaded_hover page n mouseleave Hl)
        by auto.
      rewrite (bool_decide_eq_true_2 _ (proj2 Hin Hc)),
        (bool_decide_eq_false_2 (mouseleave = mouseenter)) by done.
      by rewrite run_listeners_one. }
    split_and!; [done..|].
    apply lookup_lt_Some in Hel. rewrite <- Hlen in Hel.
    apply lookup_lt_is_Some_2 in Hel as [e0 He0].
    exists e0, (classList_add "is-hovered" e0),
      (classList_remove "is-hovered" (classList_add "is-hovered" e0)).
    rewrite Hleft, Hent. cbn [update_node dom set_dom].
    rewrite !list_lookup_alter_eq, He0.
    split_and!; [done..| | |].
    + apply elem_of_classList_add. by left.
    + rewrite elem_of_classList_remove. by intros [? _].
    + intros c Hne. rewrite elem_of_classList_remove, elem_of_classList_add.
      split; [by intros [_ [? | ?]] | by split; [|right]].
  - assert (Hnot : n ∉ querySelectorAll_classes hoverSelectors page).
    { rewrite Hin, Hc. done. }
    split.
    + unfold entered. rewrite step_Fire. cbn [plain ev_type].
      rewrite (Hh (Node n) mouseenter), (handlers_loaded_hover page n mouseenter Hl)
        by auto.
      by rewrite (bool_decide_eq_false_2 _ Hnot).
    + rewrite step_Fire. cbn [plain ev_type].
      rewrite (Hh (Node n) mouseleave), (handlers_loaded_hover page n mouseleave Hl)
        by auto.
      by rewrite (bool_decide_eq_false_2 _ Hnot).
Qed.

Lemma hover_effect_witness :
  step (Fire (Node 8) (plain mouseenter)) (run [] (loaded examplePage))
  = update_node 8 (classList_add "is-hovered") (run [] (loaded examplePage))
  ∧ step (Fire (Node 3) (plain mouseenter)) (run [] (loaded examplePage))
    = run [] (loaded examplePage).
Proof.
  split.
  - pose proof (hover_effect examplePage [] 8 (blank None ["quad-block"])) as H.
    cbv zeta in H. destruct H as [H _]; [reflexivity | constructor | reflexivity |].
    destruct H as [H _]; [vm_compute; reflexivity | exact H].
  - pose proof (hover_effect examplePage [] 3 (blank None ["main-title"])) as H.
    cbv zeta in H. destruct H as [_ H]; [reflexivity | constructor | reflexivity |].
    destruct H as [H _]; [vm_compute; reflexivity | exact H].
Defined.

(** ** Events that do nothing *)

(** X7: on the scroll-to-top button of a loaded page, a key other than Enter
    and space changes nothing and its default action is not prevented. *)
Theorem scrollTop_other_keys (page : State) (acts : list action) (b : nat)
    (key : string) :
  listeners page = [] → Forall postLoad acts →
  getElementById "scrollTopBtn" page = Some b →
  key ≠ "Enter" → key ≠ " " →
  dispatchEvent (Node b) (mkEvent keydown key false) (run acts (loaded page))
  = (run acts (loaded page), false).
Proof.
  intros Hl Hacts Hb Hk1 Hk2.
  destruct (run_wiring page Hl acts Hacts) as (Hh & _).
  rewrite dispatchEvent_handlers. cbn [ev_type].
  rewrite (Hh (Node b) keydown), (handlers_loaded page b keydown Hl) by auto.
  rewrite Hb. decide_types. rewrite run_listeners_one.
  cbn [run_listener ev_key]. rewrite bool_decide_eq_false_2; [done|].
  by intros [? | ?].
Qed.

Lemma scrollTop_other_keys_witness :
  dispatchEvent (Node 9) (mkEvent keydown "Tab" false) (run [] (loaded examplePage))
  = (run [] (loaded examplePage), false).
Proof.
  apply (scrollTop_other_keys examplePage [] 9 "Tab");
    [reflexivity | constructor | vm_compute; reflexivity | done | done].
Defined.

Lemma wiring_outer r s :
  r ∈ wiring s → (∃ n, reg_target r = Node n) ∨ reg_type r = scroll.
Proof.
  unfold wiring. rewrite !elem_of_app. intros [H|[H|[H|[H|H]]]].
  - destruct (themeBtn s); [|by apply elem_of_nil in H].
    apply list_elem_of_singleton in H as ->. left. by eexists.
  - destruct (homeBtn s); [|by apply elem_of_nil in H].
    apply list_elem_of_singleton in H as ->. left. by eexists.
  - destruct (searchBtn s); [|by apply elem_of_nil in H].
    destruct (searchSection s); [|by apply elem_of_nil in H].
    apply list_elem_of_singleton in H as ->. left. by eexists.
  - destruct (scrollTopBtn s); [|by apply elem_of_nil in H].
    repeat (apply elem_of_cons in H as [-> | H]; [by (right + (left; eexists))|]).
    by apply elem_of_nil in H.
  - destruct (searchForm s); [|by apply elem_of_nil in H].
    apply list_elem_of_singleton in H as ->. left. by eexists.
Qed.

Lemma hoverRegs_node r blocks : r ∈ hoverRegs blocks → ∃ n, reg_target r = Node n.
Proof.
  unfold hoverRegs. rewrite list_elem_of_bind. intros (b & H & _).
  repeat (apply elem_of_cons in H as [-> | H]; [by eexists|]).
  by apply elem_of_nil in H.
Qed.

Lemma listens_outer_node t ty r n :
  (∀ b, t ≠ Node b) → reg_target r = Node n → listens t ty r = false.
Proof.
  intros Ht Hr. unfold listens. rewrite bool_decide_eq_false_2; [done|].
  rewrite Hr. intros <-. by apply (Ht n).
Qed.

(** The script puts no click, keydown or submit listener on the document or
    on the window. *)
Lemma handlers_loaded_outer page t ty :
  listeners page = [] → t = Document ∨ t = Window →
  ty = click ∨ ty = keydown ∨ ty = submit →
  handlers t ty (loaded page) = [].
Proof.
  intros Hl Ht Hty. unfold handlers.
  pose proof (loaded_wiringView page Hl) as Hw.
  apply wiringView_split in Hw as (_ & _ & _ & _ & _ & _ & -> & _).
  assert (Hn : ∀ b, t ≠ Node b) by (by destruct Ht as [-> | ->]).
  apply handlersOf_none. intros r.
  rewrite !elem_of_app. intros [Hin|[Hin|[Hin|Hin]]].
  - apply list_elem_of_singleton in Hin as ->.
    unfold listens, domContentLoadedReg. cbn [reg_target reg_type].
    rewrite (bool_decide_eq_false_2 (DOMContentLoaded = ty)),
      andb_false_r; [done|].
    by destruct Hty as [-> | [-> | ->]].
  - apply wiring_outer in Hin as [[n Hr] | Hr].
    + by apply (listens_outer_node t ty r n).
    + unfold listens. rewrite Hr.
      rewrite (bool_decide_eq_false_2 (scroll = ty)), andb_false_r; [done|].
      by destruct Hty as [-> | [-> | ->]].
  - apply hoverRegs_node in Hin as [n Hr].
    by apply (listens_outer_node t ty r n).
  - apply list_elem_of_singleton in Hin as ->.
    unfold listens, systemThemeReg. cbn [reg_target reg_type].
    rewrite (bool_decide_eq_false_2 (ColorSchemeQuery = t)); [done|].
    by destruct Ht as [-> | ->].
Qed.

Lemma dispatch_along_inert ts e s :
  Forall (λ t, dispatchEvent t e s = (s, false)) ts →
  foldl (λ sp t, let r := dispatchEvent t e sp.1 in (r.1, sp.2 || r.2))
        (s, false) ts
  = (s, false).
Proof.
  induction 1 as [|t ts Ht _ IH]; [done|].
  cbn [foldl fst snd]. rewrite Ht. cbn [fst snd orb]. exact IH.
Qed.

(** X8: on a loaded page a click, a key press or a submission that occurs on
    a node which neither is nor lies inside one of the elements the script
    wires for such events (the theme, home, search and scroll-to-top buttons
    and the search form; in particular when such an element is missing from
    the page) runs no listener on its way from that node up to the document
    and the window: nothing changes and the default action is not
    prevented. *)
Theorem unwired_path_inert (page : State) (acts : list action) (path : list nat)
    (e : Event) :
  listeners page = [] → Forall postLoad acts →
  ev_type e = click ∨ ev_type e = keydown ∨ ev_type e = submit →
  Forall (λ n, ¬ lookedUp page n) path →
  dispatchBubbling path e (run acts (loaded page)) = (run acts (loaded page), false).
Proof.
  intros Hl Hacts Hty Hpath.
  destruct (run_wiring page Hl acts Hacts) as (Hh & _).
  unfold dispatchBubbling. apply dispatch_along_inert.
  apply Forall_app. split.
  - apply Forall_fmap. eapply Forall_impl; [exact Hpath|].
    intros n Hn. cbn beta. unfold compose.
    rewrite dispatchEvent_handlers.
    rewrite (Hh (Node n) (ev_type e)), (handlers_loaded page n (ev_type e) Hl) by done.
    unfold lookedUp in Hn.
    rewrite !(bool_decide_eq_false_2 (_ = Some n)) by tauto. done.
  - repeat constructor; rewrite dispatchEvent_handlers.
    + by rewrite (Hh Document (ev_type e)), (handlers_loaded_outer page) by auto.
    + by rewrite (Hh Window (ev_type e)), (handlers_loaded_outer page) by auto.
Qed.

Lemma unwired_path_inert_witness :
  dispatchBubbling [8; 4] (plain click) (run [] (loaded examplePage))
  = (run [] (loaded examplePage), false).
Proof.
  apply (unwired_path_inert examplePage [] [8; 4] (plain click));
    [reflexivity | constructor | by left |].
  repeat constructor; unfold lookedUp; vm_compute; intros H;
    repeat (destruct H as [H | H]; [discriminate H|]); discriminate H.
Defined.

(** The same propagation reaches a wired element from inside: a click on a
    node that lies in the home button of the example page scrolls to the
    top. *)
Lemma click_inside_home_button :
  dispatchBubbling [3; 1] (plain click) (loaded examplePage)
  = (scrollToTop (loaded examplePage), false).
Proof. vm_compute. reflexivity. Qed.

(** X9: when the search form of a loaded page has no input named q, its
    submission logs nothing, changes nothing and is not prevented. *)
Theorem search_submission_without_input (page : State) (acts : list action)
    (f : nat) :
  listeners page = [] → Forall postLoad acts →
  q_searchForm page = Some f → q_input_q page = None →
  dispatchEvent (Node f) (plain submit) (run acts (loaded page))
  = (run acts (loaded page), false).
Proof.
  intros Hl Hacts Hf Hq.
  destruct (run_wiring page Hl acts Hacts) as (Hh & _ & _ & _ & _ & _ & Hsf & Hq' & _).
  rewrite dispatchEvent_handlers. cbn [plain ev_type].
  rewrite (Hh (Node f) submit), (handlers_loaded page f submit Hl) by auto.
  rewrite Hf. decide_types.
  assert ((if bool_decide (getElementById "scrollTopBtn" page = Some f)
           then [] else []) = @nil listener) as -> by (by destruct (bool_decide _)).
  cbn [app]. rewrite run_listeners_one. cbn [run_listener].
  unfold handleSearch. by rewrite Hsf, Hf, Hq', Hq.
Qed.

Lemma search_submission_without_input_witness :
  let page := mkState None None None None None None "" false
                [blank None ["search-engine"]; blank None []]
                (blank None []) (Some 1) None
                (mkStorage ∅ false false) false 0 [] None [] [] [] in
  dispatchEvent (Node 1) (plain submit) (run [] (loaded page))
  = (run [] (loaded page), false).
Proof.
  intros page.
  apply (search_submission_without_input page [] 1);
    [reflexivity | constructor | reflexivity | reflexivity].
Defined.

(** ** The theme and what shows it *)

Lemma initialTheme_valid s : validTheme (initialTheme s).
Proof.
  unfold initialTheme, systemTheme.
  destruct (readStoredTheme s) as [t|]; [case_bool_decide; [done|]|];
    destruct (prefersDark s); by (left + right).
Qed.

Lemma eventTheme_valid e : validTheme (eventTheme e).
Proof. unfold eventTheme. destruct (ev_matches e); by (left + right). Qed.

Lemma themeMirrored_core s s' :
  themeCore s' = themeCore s → themeMirrored s → themeMirrored s'.
Proof.
  intros H [Hv Hd]. unfold themeMirrored.
  by rewrite (themeCore_current _ _ H), (themeCore_dataTheme _ _ H).
Qed.

Lemma themeMirrored_applyTheme t save s :
  validTheme t → themeMirrored (applyTheme t save s).
Proof.
  intros Hv. unfold themeMirrored.
  by rewrite applyTheme_currentTheme, applyTheme_dataTheme.
Qed.

Lemma themeMirrored_run_listener l e s :
  themeMirrored s → themeMirrored (run_listener l e s).1.
Proof.
  intros H. destruct l; cbn [run_listener fst]; try done.
  - destruct (initialize_effect s) as (Ht & Hd & _). unfold themeMirrored.
    rewrite Ht, Hd. split; [apply initialTheme_valid | done].
  - rewrite toggleTheme_unfold.
    eapply themeMirrored_core; [apply themeCore_console_write|].
    apply themeMirrored_applyTheme, opposite_valid.
  - eapply themeMirrored_core; [apply themeCore_scrollToTop | done].
  - eapply themeMirrored_core; [apply themeCore_smoothScrollToElement | done].
  - eapply themeMirrored_core; [apply themeCore_scrollToTop | done].
  - case_bool_decide; [|done].
    eapply themeMirrored_core; [apply themeCore_scrollToTop | done].
  - destruct (handleSearch e s) as [s'|] eqn:E; cbn [default]; [|done].
    eapply themeMirrored_core; [by apply (themeCore_handleSearch e s) | done].
  - rewrite handleSystemThemeChange_unfold. destruct (falsy _); [|done].
    apply themeMirrored_applyTheme, eventTheme_valid.
Qed.

Lemma themeMirrored_run_listeners ls e s :
  themeMirrored s → themeMirrored (run_listeners ls e s).1.
Proof.
  unfold run_listeners. generalize false. revert s.
  induction ls as [|l ls IH]; intros s p H; cbn [foldl fst]; [done|].
  apply IH. by apply themeMirrored_run_listener.
Qed.

Lemma themeMirrored_step a s : themeMirrored s → themeMirrored (step a s).
Proof.
  intros H. destruct a; cbn [step]; try done.
  - eapply themeMirrored_core; [apply themeCore_init | done].
  - by apply themeMirrored_run_listeners.
  - by apply themeMirrored_run_listeners.
  - by apply themeMirrored_run_listeners.
  - case_bool_decide; [|done].
    eapply themeMirrored_core; [apply themeCore_toggleScrollButton | done].
Qed.

(** X10: from the moment the page is loaded, whatever happens afterwards
    (clicks, system changes, scrolling, typing, further calls of init, even
    with a storage that fails), the in-memory theme is "light" or "dark" and
    the data-theme attribute of the root element shows exactly it. *)
Theorem theme_mirrored (page : State) (acts : list action) :
  listeners page = [] →
  validTheme (currentTheme (run acts (loaded page)))
  ∧ dataTheme (run acts (loaded page)) = Some (currentTheme (run acts (loaded page))).
Proof.
  intros Hl.
  assert (H : ∀ s, themeMirrored s → themeMirrored (run acts s)).
  { induction acts as [|a acts IH]; intros s Hs; cbn [run foldl]; [done|].
    apply IH. by apply themeMirrored_step. }
  apply H. rewrite (loaded_initialize page Hl).
  destruct (initialize_effect (new_WindowsHistoryApp page)) as (Ht & Hd & _).
  unfold themeMirrored. rewrite Ht, Hd. split; [apply initialTheme_valid | done].
Qed.

Lemma theme_mirrored_witness :
  dataTheme (run [Fire (Node 0) (plain click); SystemTheme false; CallInit]
                 (loaded blockedStoragePage))
  = Some (currentTheme (run [Fire (Node 0) (plain click); SystemTheme false; CallInit]
                            (loaded blockedStoragePage))).
Proof.
  apply (theme_mirrored blockedStoragePage
           [Fire (Node 0) (plain click); SystemTheme false; CallInit]).
  reflexivity.
Defined.

Lemma themeBtnLabel_view s :
  themeBtnLabel s = themeBtn s ≫= λ b, (el_textContent <$> dom s) !! b.
Proof.
  unfold themeBtnLabel. destruct (themeBtn s) as [b|]; [|done].
  cbn. by rewrite list_lookup_fmap.
Qed.

Lemma themeBtnAria_view s :
  themeBtnAria s
  = themeBtn s ≫= λ b, mjoin (((λ el, el_attrs el !! "aria-label") <$> dom s) !! b).
Proof.
  unfold themeBtnAria. destruct (themeBtn s) as [b|]; [|done].
  cbn. rewrite list_lookup_fmap. by destruct (dom s !! b).
Qed.

Lemma themeLabelled_view s s' :
  labelView s' = labelView s → themeLabelled s → themeLabelled s'.
Proof.
  unfold labelView. intros [= Hc Hb Ht Ha] H b Hb' Hlt.
  rewrite themeBtnLabel_view, themeBtnAria_view, Hc, Hb, Ht, Ha.
  rewrite <- themeBtnLabel_view, <- themeBtnAria_view.
  apply (H b); [congruence|].
  by rewrite <- (length_fmap el_textContent (dom s)), <- Ht, length_fmap.
Qed.

Lemma labelView_update_node n f s :
  (∀ x, el_textContent (f x) = el_textContent x) →
  (∀ x, el_attrs (f x) = el_attrs x) →
  labelView (update_node n f s) = labelView s.
Proof.
  intros Ht Ha. unfold labelView, update_node.
  cbn [set_dom currentTheme themeBtn dom].
  rewrite (list_fmap_alter el_textContent f id), list_alter_id
    by (done || by apply Forall_forall).
  rewrite (list_fmap_alter (λ el, el_attrs el !! "aria-label") f id), list_alter_id;
    [done..|].
  apply Forall_forall. intros x _. cbn. by rewrite Ha.
Qed.

Lemma classList_add_fields c x :
  el_textContent (classList_add c x) = el_textContent x
  ∧ el_attrs (classList_add c x) = el_attrs x.
Proof. unfold classList_add. by destruct (classList_contains c x). Qed.

Lemma labelView_animateIntro s : labelView (animateIntro s) = labelView s.
Proof.
  unfold animateIntro. apply foldl_keeps. intros s0 a.
  rewrite labelView_update_node by done.
  apply labelView_update_node; intros x; apply classList_add_fields.
Qed.

Lemma labelView_toggleScrollButton s : labelView (toggleScrollButton s) = labelView s.
Proof.
  unfold toggleScrollButton. destruct (scrollTopBtn s); [|done].
  destruct (_ <? _); apply labelView_update_node; try done;
    intros x; apply classList_add_fields.
Qed.

Lemma themeLabelled_applyTheme t save s : themeLabelled (applyTheme t save s).
Proof.
  intros b Hb Hlt. rewrite applyTheme_themeBtn in Hb.
  rewrite applyTheme_dom_length in Hlt. rewrite applyTheme_currentTheme.
  by apply (applyTheme_label t save s b).
Qed.

Lemma themeLabelled_run_listener l e s :
  l ≠ OnDOMContentLoaded → themeLabelled s → themeLabelled (run_listener l e s).1.
Proof.
  intros Hl H. destruct l; cbn [run_listener fst]; try done.
  - rewrite toggleTheme_unfold.
    eapply themeLabelled_view; [|apply themeLabelled_applyTheme]. reflexivity.
  - eapply themeLabelled_view; [|exact H]. unfold scrollToTop. cbv zeta.
    cbn [scrollTopBtn set_scrollRequests]. by destruct (scrollTopBtn s).
  - eapply themeLabelled_view; [|exact H]. by destruct (searchSection s).
  - eapply themeLabelled_view; [|exact H]. unfold scrollToTop. cbv zeta.
    cbn [scrollTopBtn set_scrollRequests]. by destruct (scrollTopBtn s).
  - case_bool_decide; [|done].
    eapply themeLabelled_view; [|exact H]. unfold scrollToTop. cbv zeta.
    cbn [scrollTopBtn set_scrollRequests]. by destruct (scrollTopBtn s).
  - destruct (handleSearch e s) as [s'|] eqn:E; cbn [default]; [|done].
    eapply themeLabelled_view; [|exact H].
    unfold handleSearch in E. destruct (searchForm s); [|done].
    destruct (q_input_q s ≫= _); [|by simplify_eq].
    case_bool_decide; by simplify_eq.
  - rewrite handleSystemThemeChange_unfold. destruct (falsy _); [|done].
    apply themeLabelled_applyTheme.
  - eapply themeLabelled_view; [|exact H].
    apply labelView_update_node; intros x; apply classList_add_fields.
  - eapply themeLabelled_view; [|exact H]. by apply labelView_update_node.
Qed.

Lemma themeLabelled_run_listeners ls e s :
  OnDOMContentLoaded ∉ ls → themeLabelled s → themeLabelled (run_listeners ls e s).1.
Proof.
  unfold run_listeners. generalize false. revert s.
  induction ls as [|l ls IH]; intros s p Hn H; cbn [foldl fst]; [done|].
  apply not_elem_of_cons in Hn as [H1 H2].
  apply IH; [done|]. apply themeLabelled_run_listener; [congruence | done].
Qed.

Lemma labelView_console_write c s : labelView (console_write c s) = labelView s.
Proof. reflexivity. Qed.

Lemma labelView_set_isInitialized b s : labelView (set_isInitialized b s) = labelView s.
Proof. reflexivity. Qed.

Lemma labelView_addEventListener t ty l s :
  labelView (addEventListener t ty l s) = labelView s.
Proof. reflexivity. Qed.

Lemma themeLabelled_loaded page : listeners page = [] → themeLabelled (loaded page).
Proof.
  intros Hl. rewrite (loaded_initialize page Hl).
  unfold initialize, setupTheme. cbv zeta.
  eapply themeLabelled_view.
  { by rewrite labelView_console_write, labelView_set_isInitialized,
      labelView_animateIntro, labelView_addEventListener. }
  rewrite determineInitialTheme_unfold. cbv zeta.
  destruct (readStoredTheme _) as [t|]; [case_bool_decide|];
    apply themeLabelled_applyTheme.
Qed.

Section LabelAfterLoad.
Variable page : State.
Hypothesis page_fresh : listeners page = [].

Lemma postLoad_handlers t ty s :
  sameWiring (loaded page) s → (t = Document → ty ≠ DOMContentLoaded) →
  OnDOMContentLoaded ∉ handlers t ty s.
Proof.
  intros [Hw _] Hty Hin.
  apply wiringView_fields in Hw as (_ & _ & _ & _ & _ & _ & Hl & _).
  rewrite (handlers_listeners t ty (loaded page) s Hl) in Hin.
  apply (handlers_loaded_DOMContentLoaded page _ _ page_fresh) in Hin as [-> Hd].
  by apply Hty.
Qed.

Lemma step_themeLabelled a s :
  postLoad a → sameWiring (loaded page) s → themeLabelled s →
  themeLabelled (step a s).
Proof.
  intros Ha Hs H. destruct a; cbn [step].
  - rewrite init_after_load; [by eapply themeLabelled_view; [|exact H]|].
    destruct Hs as [_ ->].
    by rewrite (loaded_initialize page page_fresh), isInitialized_initialize.
  - rewrite dispatchEvent_handlers. apply themeLabelled_run_listeners; [|done].
    apply postLoad_handlers; [done|]. intros ->. exact Ha.
  - rewrite dispatchEvent_handlers. cbn [ev_type].
    rewrite (handlers_listeners _ _ s (set_prefersDark dark s)) by done.
    apply themeLabelled_run_listeners; [by apply postLoad_handlers|].
    by eapply themeLabelled_view; [|exact H].
  - rewrite dispatchEvent_handlers. cbn [ev_type].
    rewrite (handlers_listeners _ _ s (set_scrollY y s)) by done.
    apply themeLabelled_run_listeners; [by apply postLoad_handlers|].
    by eapply themeLabelled_view; [|exact H].
  - case_bool_decide; [|done].
    eapply themeLabelled_view; [|exact H]. by rewrite labelView_toggleScrollButton.
  - eapply themeLabelled_view; [|exact H]. by apply labelView_update_node.
  - by eapply themeLabelled_view; [|exact H].
Qed.

Lemma run_themeLabelled acts :
  Forall postLoad acts → themeLabelled (run acts (loaded page)).
Proof.
  assert (∀ s, Forall postLoad acts → sameWiring (loaded page) s → themeLabelled s →
               themeLabelled (run acts s)) as H.
  { induction acts as [|a acts IH]; intros s Hf Hs Hlab; cbn [run foldl]; [done|].
    apply Forall_cons in Hf as [Ha Hf].
    apply IH; [done | by apply step_sameWiring | by apply step_themeLabelled]. }
  intros Hf. apply H; [done | apply sameWiring_refl | by apply themeLabelled_loaded].
Qed.

End LabelAfterLoad.

(** X11: on a loaded page that has a theme button, after any sequence of
    actions the text and the aria-label of the button are the ones that go
    with the in-memory theme: with the dark theme the button offers the light
    one, and the other way round. *)
Theorem theme_button_labelled (page : State) (acts : list action) (b : nat) :
  listeners page = [] → Forall postLoad acts →
  getElementById "themeToggle" page = Some b →
  themeBtnLabel (run acts (loaded page))
  = Some (if bool_decide (currentTheme (run acts (loaded page)) = "dark")
          then "☀️ Светлая" else "🌙 Тёмная")
  ∧ themeBtnAria (run acts (loaded page))
    = Some (if bool_decide (currentTheme (run acts (loaded page)) = "dark")
            then "Переключить на светлую тему" else "Переключить на тёмную тему").
Proof.
  intros Hl Hacts Hb.
  destruct (run_wiring page Hl acts Hacts) as (_ & Htb & _ & _ & _ & _ & _ & _ & Hlen).
  apply (run_themeLabelled page Hl acts Hacts b); [congruence|].
  rewrite Hlen. apply getElementById_Some in Hb as (el & Hel & _).
  by apply lookup_lt_Some in Hel.
Qed.

Lemma theme_button_labelled_witness :
  themeBtnLabel (run [Fire (Node 0) (plain click); Scroll 5] (loaded examplePage))
  = Some "☀️ Светлая".
Proof.
  pose proof (theme_button_labelled examplePage
                [Fire (Node 0) (plain click); Scroll 5] 0) as H.
  destruct H as [H _]; [reflexivity | by repeat constructor | vm_compute; reflexivity |].
  rewrite H. vm_compute. reflexivity.
Defined.

(** ** Calls of [init] after the page is loaded *)

Lemma run_CallInit_after_load n s :
  isInitialized s = true →
  run (replicate n CallInit) s
  = set_console (console s ++ replicate n WarnAlreadyInitialized) s.
Proof.
  revert s. induction n as [|n IH]; intros s Hi.
  - cbn [replicate run foldl]. rewrite app_nil_r. by destruct s.
  - cbn [replicate run foldl step]. rewrite (init_after_load s Hi).
    fold (run (replicate n CallInit) (console_write WarnAlreadyInitialized s)).
    rewrite IH by done. unfold console_write. cbn [console set_console].
    rewrite <- app_assoc. by destruct s.
Qed.

(** X12: once the page is loaded, any number of calls of [init] only adds
    that many warnings to the console: no listener is registered, no element
    is looked up again and the theme is left alone. *)
Theorem init_calls_after_load (page : State) (acts : list action) (n : nat) :
  listeners page = [] → Forall postLoad acts →
  run (acts ++ replicate n CallInit) (loaded page)
  = set_console (console (run acts (loaded page))
                 ++ replicate n WarnAlreadyInitialized)
                (run acts (loaded page)).
Proof.
  intros Hl Hacts. rewrite run_app. apply run_CallInit_after_load.
  destruct (run_sameWiring page Hl acts Hacts) as [_ ->].
  by rewrite (loaded_initialize page Hl), isInitialized_initialize.
Qed.

Lemma init_calls_after_load_witness :
  console (run ([Scroll 3] ++ replicate 2 CallInit) (loaded examplePage))
  = [LogInitialized; WarnAlreadyInitialized; WarnAlreadyInitialized].
Proof.
  rewrite (init_calls_after_load examplePage [Scroll 3] 2);
    [vm_compute; reflexivity | reflexivity | by repeat constructor].
Defined.

(** ** System changes while nothing is stored *)

(** X13: on a loaded page, as long as the read of the theme key yields
    nothing (no choice stored, or a storage that cannot be read), a change of
    the system colour scheme is followed: the theme of the new scheme becomes
    the in-memory theme and the data-theme attribute, and the storage is not
    written, so the next change is followed as well. *)
Theorem system_change_followed (page : State) (acts : list action) (dark : bool) :
  listeners page = [] → Forall postLoad acts →
  readStoredTheme (run acts (loaded page)) = None →
  currentTheme (step (SystemTheme dark) (run acts (loaded page)))
  = (if dark then "dark" else "light")
  ∧ dataTheme (step (SystemTheme dark) (run acts (loaded page)))
    = Some (if dark then "dark" else "light")
  ∧ localStorage (step (SystemTheme dark) (run acts (loaded page)))
    = localStorage (run acts (loaded page))
  ∧ readStoredTheme (step (SystemTheme dark) (run acts (loaded page))) = None.
Proof.
  intros Hl Hacts Hr. set (s := run acts (loaded page)) in *.
  destruct (run_wiring page Hl acts Hacts) as (Hh & _). fold s in Hh.
  assert (Hstep : step (SystemTheme dark) s
            = handleSystemThemeChange (mkEvent change "" dark) (set_prefersDark dark s)).
  { cbn [step]. rewrite dispatchEvent_handlers. cbn [ev_type].
    rewrite (handlers_listeners _ _ s (set_prefersDark dark s)) by done.
    rewrite (Hh ColorSchemeQuery change), (handlers_loaded_change page Hl).
    by rewrite run_listeners_one. }
  destruct (handleSystemThemeChange_effect (mkEvent change "" dark)
              (set_prefersDark dark s)) as [_ H].
  destruct H as (Ht & Hd & Hs).
  { change (readStoredTheme (set_prefersDark dark s)) with (readStoredTheme s).
    by rewrite Hr. }
  rewrite Hstep. unfold eventTheme in Ht, Hd. cbn [ev_matches] in Ht, Hd.
  split_and!; [done..|].
  unfold readStoredTheme, storedTheme in *. by rewrite Hs.
Qed.

Lemma system_change_followed_witness :
  currentTheme (step (SystemTheme true) (run [Scroll 3] (loaded examplePage))) = "dark".
Proof.
  pose proof (system_change_followed examplePage [Scroll 3] true) as H.
  destruct H as [H _];
    [reflexivity | by repeat constructor | vm_compute; reflexivity | exact H].
Defined.

(** ** Repeating the intro animation *)

Lemma classList_contains_add_ne c c0 el :
  c ≠ c0 → classList_contains c (classList_add c0 el) = classList_contains c el.
Proof.
  intros Hne. unfold classList_contains. apply bool_decide_ext.
  rewrite elem_of_classList_add. split; [by intros [? | ?] | by right].
Qed.

Lemma has_some_class_fadeIn k el :
  has_some_class fadeSelectors (fadeIn k el) = has_some_class fadeSelectors el.
Proof.
  unfold has_some_class, fadeSelectors, fadeIn. cbn [existsb].
  change (classList_contains ?c (set_animationDelay ?d ?x))
    with (classList_contains c x).
  by rewrite !classList_contains_add_ne.
Qed.

Lemma fadeIn_idemp k el : fadeIn k (fadeIn k el) = fadeIn k el.
Proof.
  unfold fadeIn.
  assert (H : ∀ d x, classList_contains "fade-in" x = true →
                set_animationDelay d (classList_add "fade-in" (set_animationDelay d x))
                = set_animationDelay d x).
  { intros d x Hx. unfold classList_add.
    change (classList_contains "fade-in" (set_animationDelay d x))
      with (classList_contains "fade-in" x).
    by rewrite Hx. }
  apply H. apply bool_decide_eq_true_2, elem_of_classList_add. by left.
Qed.

Lemma indices_from_fadeAll off off' l d :
  indices_from (has_some_class fadeSelectors) off' (fadeAll off l d)
  = indices_from (has_some_class fadeSelectors) off' d.
Proof.
  revert off d. induction l as [|x l IH]; intros off d; [done|].
  rewrite fadeAll_cons, IH. apply indices_from_alter. intros y.
  apply has_some_class_fadeIn.
Qed.

Lemma fadeAll_idemp l d : NoDup l → fadeAll 0 l (fadeAll 0 l d) = fadeAll 0 l d.
Proof.
  intros Hnd. apply list_eq. intros n.
  destruct (decide (n ∈ l)) as [Hin|Hnot].
  - apply list_elem_of_lookup in Hin as [k Hk].
    rewrite !(fadeAll_selected 0 l _ k n) by done.
    destruct (d !! n); [|done]. cbn. by rewrite fadeIn_idemp.
  - by rewrite !fadeAll_other.
Qed.

Lemma animateIntro_only_dom s : animateIntro s = set_dom (dom (animateIntro s)) s.
Proof.
  unfold animateIntro. cbv zeta.
  generalize (imap pair (querySelectorAll_classes
    ["content-block"; "main-title"; "green-gradient-heading"; "quad-block"] s)).
  intros l. revert s. induction l as [|a l IH]; intros s.
  - cbn [foldl]. by rewrite set_dom_dom.
  - cbn [foldl]. rewrite IH at 1. unfold update_node.
    by rewrite !set_dom_set_dom.
Qed.

(** X14: the intro animation selects the same blocks when it is run again
    and gives them the same delay and class, so running it a second time (as
    a repeated initialisation does) changes nothing. *)
Theorem animateIntro_idempotent (s : State) :
  querySelectorAll_classes fadeSelectors (animateIntro s)
  = querySelectorAll_classes fadeSelectors s
  ∧ animateIntro (animateIntro s) = animateIntro s.
Proof.
  assert (Hsel : querySelectorAll_classes fadeSelectors (animateIntro s)
                 = querySelectorAll_classes fadeSelectors s).
  { unfold querySelectorAll_classes. rewrite animateIntro_dom.
    apply indices_from_fadeAll. }
  split; [done|].
  rewrite (animateIntro_only_dom (animateIntro s)), (animateIntro_dom (animateIntro s)).
  rewrite Hsel, animateIntro_dom, fadeAll_idemp by apply indices_from_NoDup.
  rewrite (animateIntro_only_dom s) at 1. rewrite set_dom_set_dom.
  by rewrite <- animateIntro_dom, <- animateIntro_only_dom.
Qed.

(** ** A stored choice survives a reload *)

Lemma themePersisted_read s :
  themePersisted s → readStoredTheme s = Some (currentTheme s).
Proof. intros (Hg & _ & _ & Hs). unfold readStoredTheme. by rewrite Hg. Qed.

Lemma themePersisted_core s s' :
  themeCore s' = themeCore s → themePersisted s → themePersisted s'.
Proof.
  intros H (Hg & Hs & Hv & Hst). unfold themePersisted, storedTheme in *.
  by rewrite (themeCore_storage _ _ H), (themeCore_current _ _ H).
Qed.

Lemma themePersisted_toggleTheme s :
  getItem_throws (localStorage s) = false →
  setItem_throws (localStorage s) = false →
  themePersisted (toggleTheme s).
Proof.
  intros Hg Hs. unfold themePersisted.
  rewrite toggleTheme_stored, toggleTheme_currentTheme, toggleTheme_storage, Hs.
  cbn [getItem_throws setItem_throws]. split_and!; [done..|apply opposite_valid|done].
Qed.

Lemma themePersisted_run_listener l e s :
  themePersisted s → themePersisted (run_listener l e s).1.
Proof.
  intros H. pose proof H as (Hg & Hs & Hv & Hst).
  destruct l; cbn [run_listener fst]; try done.
  - destruct (initialize_effect s) as (Ht & _ & Hsto).
    unfold themePersisted, storedTheme. rewrite Ht, Hsto.
    assert (initialTheme s = currentTheme s) as ->.
    { unfold initialTheme. rewrite (themePersisted_read s H).
      by rewrite bool_decide_eq_true_2. }
    done.
  - by apply themePersisted_toggleTheme.
  - eapply themePersisted_core; [apply themeCore_scrollToTop | done].
  - eapply themePersisted_core; [apply themeCore_smoothScrollToElement | done].
  - eapply themePersisted_core; [apply themeCore_scrollToTop | done].
  - case_bool_decide; [|done].
    eapply themePersisted_core; [apply themeCore_scrollToTop | done].
  - destruct (handleSearch e s) as [s'|] eqn:E; cbn [default]; [|done].
    eapply themePersisted_core; [by apply (themeCore_handleSearch e s) | done].
  - rewrite handleSystemThemeChange_unfold, (themePersisted_read s H).
    by rewrite validTheme_truthy.
Qed.

Lemma themePersisted_run_listeners ls e s :
  themePersisted s → themePersisted (run_listeners ls e s).1.
Proof.
  unfold run_listeners. generalize false. revert s.
  induction ls as [|l ls IH]; intros s p H; cbn [foldl fst]; [done|].
  apply IH. by apply themePersisted_run_listener.
Qed.

Lemma themePersisted_step a s : themePersisted s → themePersisted (step a s).
Proof.
  intros H. destruct a; cbn [step]; try done.
  - eapply themePersisted_core; [apply themeCore_init | done].
  - by apply themePersisted_run_listeners.
  - by apply themePersisted_run_listeners.
  - by apply themePersisted_run_listeners.
  - case_bool_decide; [|done].
    eapply themePersisted_core; [apply themeCore_toggleScrollButton | done].
Qed.

Lemma themePersisted_run acts s : themePersisted s → themePersisted (run acts s).
Proof.
  revert s. induction acts as [|a acts IH]; intros s H; cbn [run foldl]; [done|].
  apply IH. by apply themePersisted_step.
Qed.

(** X15: in a browser whose storage works, once the user has clicked the
    theme button the storage holds the theme that the page shows, whatever
    happens afterwards; and a page loaded later with that storage starts
    with this theme, whatever the system preference is then. *)
Theorem theme_choice_survives_reload (page : State) (acts1 acts2 : list action)
    (n : nat) (page2 : State) :
  listeners page = [] → Forall postLoad acts1 →
  getItem_throws (localStorage page) = false →
  setItem_throws (localStorage page) = false →
  getElementById "themeToggle" page = Some n →
  let s := run acts2 (step (Fire (Node n) (plain click)) (run acts1 (loaded page))) in
  listeners page2 = [] → localStorage page2 = localStorage s →
  storedTheme s = Some (currentTheme s)
  ∧ currentTheme (loaded page2) = currentTheme s
  ∧ dataTheme (loaded page2) = Some (currentTheme s).
Proof.
  intros Hl Ha1 Hg Hs Hn s Hl2 Hsto.
  set (s1 := run acts1 (loaded page)).
  assert (Hclick : step (Fire (Node n) (plain click)) s1 = toggleTheme s1).
  { destruct (run_wiring page Hl acts1 Ha1) as (Hh & _). fold s1 in Hh.
    rewrite step_Fire. cbn [plain ev_type].
    rewrite (Hh (Node n) click), (handlers_loaded page n click Hl) by auto.
    rewrite (getElementById_other "themeToggle" "homeBtn" page n),
      (getElementById_other "themeToggle" "scrollToSearch" page n),
      (getElementById_other "themeToggle" "scrollTopBtn" page n) by done.
    rewrite Hn. decide_types. by rewrite run_listeners_one. }
  assert (Hflags : getItem_throws (localStorage s1) = false
                   ∧ setItem_throws (localStorage s1) = false).
  { unfold s1. rewrite loaded_run.
    destruct (storage_ok_run (localStorage page)
                (Fire Document (plain DOMContentLoaded) :: acts1)
                (new_WindowsHistoryApp page)) as (Hg' & Hs' & _).
    { rewrite new_WindowsHistoryApp_storage. apply theme_writes_only_refl. }
    by rewrite Hg', Hs'. }
  assert (HP : themePersisted s).
  { unfold s. fold s1. rewrite Hclick. apply themePersisted_run.
    destruct Hflags. by apply themePersisted_toggleTheme. }
  pose proof HP as (Hg2 & _ & Hv & Hst).
  rewrite (loaded_initialize page2 Hl2).
  destruct (initialize_effect (new_WindowsHistoryApp page2)) as (-> & -> & _).
  assert (initialTheme (new_WindowsHistoryApp page2) = currentTheme s) as ->; [|done].
  unfold initialTheme, readStoredTheme, storedTheme.
  rewrite new_WindowsHistoryApp_storage, Hsto, Hg2.
  unfold storedTheme in Hst. rewrite Hst. by rewrite bool_decide_eq_true_2.
Qed.

Lemma theme_choice_survives_reload_witness :
  currentTheme (loaded storedDarkPage) = "dark".
Proof.
  pose proof (theme_choice_survives_reload examplePage [] [SystemTheme false] 0
                storedDarkPage) as H.
  cbv zeta in H. destruct H as (_ & H & _).
  - reflexivity.
  - constructor.
  - reflexivity.
  - reflexivity.
  - vm_compute; reflexivity.
  - reflexivity.
  - vm_compute; reflexivity.
  - rewrite H. vm_compute. reflexivity.
Defined.

(** ** The aria-hidden attribute of the scroll-to-top button *)

Lemma hiddenView_update_node n f s :
  (∀ x, el_attrs (f x) !! "aria-hidden" = el_attrs x !! "aria-hidden") →
  hiddenView (update_node n f s) = hiddenView s.
Proof.
  intros Hf. unfold hiddenView, update_node. cbn [set_dom dom].
  rewrite (list_fmap_alter (λ el, el_attrs el !! "aria-hidden") f id), list_alter_id;
    [done..|].
  apply Forall_forall. intros x _. apply Hf.
Qed.

Lemma hiddenView_classList_add n c s :
  hiddenView (update_node n (classList_add c) s) = hiddenView s.
Proof.
  apply hiddenView_update_node. intros x.
  by rewrite (proj2 (classList_add_fields c x)).
Qed.

Lemma hiddenView_applyTheme t save s : hiddenView (applyTheme t save s) = hiddenView s.
Proof.
  unfold applyTheme, safeSetStorage. cbv zeta.
  cbn [themeBtn set_documentElement set_currentTheme].
  assert (∀ s0, hiddenView
            (if save then
               (match localStorage_setItem STORAGE_KEYS_THEME t (localStorage s0) with
                | Some st => (true, set_localStorage st s0)
                | None => (false, console_write WarnStorageSetFailed s0)
                end).2
             else s0) = hiddenView s0) as ->.
  { intros s0. destruct save; [|done]. by destruct (localStorage_setItem _ _ _). }
  destruct (themeBtn s); [|done].
  rewrite !hiddenView_update_node; [done..|].
  intros x. cbn. by apply lookup_insert_ne.
Qed.

Lemma hiddenView_safeGetStorage k s : hiddenView (safeGetStorage k s).2 = hiddenView s.
Proof. unfold safeGetStorage. by destruct (localStorage_getItem _ _). Qed.

Lemma hiddenView_determineInitialTheme s :
  hiddenView (determineInitialTheme s) = hiddenView s.
Proof.
  rewrite determineInitialTheme_unfold. cbv zeta.
  destruct (readStoredTheme s) as [t|]; [case_bool_decide|];
    by rewrite hiddenView_applyTheme, hiddenView_safeGetStorage.
Qed.

Lemma hiddenView_handleSystemThemeChange e s :
  hiddenView (handleSystemThemeChange e s) = hiddenView s.
Proof.
  rewrite handleSystemThemeChange_unfold. destruct (falsy _); [|done].
  by rewrite hiddenView_applyTheme, hiddenView_safeGetStorage.
Qed.

Lemma hiddenView_console_write c s : hiddenView (console_write c s) = hiddenView s.
Proof. reflexivity. Qed.

Lemma hiddenView_set_listeners ls s : hiddenView (set_listeners ls s) = hiddenView s.
Proof. reflexivity. Qed.

Lemma hiddenView_set_isInitialized b s : hiddenView (set_isInitialized b s) = hiddenView s.
Proof. reflexivity. Qed.

Lemma hiddenView_toggleTheme s : hiddenView (toggleTheme s) = hiddenView s.
Proof.
  by rewrite toggleTheme_unfold, hiddenView_console_write, hiddenView_applyTheme.
Qed.

Lemma hiddenView_scrollToTop s : hiddenView (scrollToTop s) = hiddenView s.
Proof.
  unfold scrollToTop. cbv zeta. cbn [scrollTopBtn set_scrollRequests].
  by destruct (scrollTopBtn s).
Qed.

Lemma hiddenView_toggleScrollButton s : hiddenView (toggleScrollButton s) = hiddenView s.
Proof.
  unfold toggleScrollButton. destruct (scrollTopBtn s); [|done].
  destruct (_ <? _); [apply hiddenView_classList_add|].
  by apply hiddenView_update_node.
Qed.

Lemma hiddenView_animateIntro s : hiddenView (animateIntro s) = hiddenView s.
Proof.
  unfold animateIntro. apply foldl_keeps. intros s0 a.
  rewrite hiddenView_update_node by done. apply hiddenView_classList_add.
Qed.

Lemma hiddenView_run_listener l e s :
  l ≠ OnDOMContentLoaded → hiddenView (run_listener l e s).1 = hiddenView s.
Proof.
  intros Hl. destruct l; cbn [run_listener fst]; try done.
  - apply hiddenView_toggleTheme.
  - apply hiddenView_scrollToTop.
  - by destruct (searchSection s).
  - apply hiddenView_scrollToTop.
  - case_bool_decide; [apply hiddenView_scrollToTop | done].
  - destruct (handleSearch e s) as [s'|] eqn:E; cbn [default]; [|done].
    unfold handleSearch in E. destruct (searchForm s); [|done].
    destruct (q_input_q s ≫= _); [|by simplify_eq].
    case_bool_decide; by simplify_eq.
  - apply hiddenView_handleSystemThemeChange.
  - apply hiddenView_classList_add.
  - by apply hiddenView_update_node.
Qed.

Lemma hiddenView_run_listeners ls e s :
  OnDOMContentLoaded ∉ ls → hiddenView (run_listeners ls e s).1 = hiddenView s.
Proof.
  unfold run_listeners. generalize false. revert s.
  induction ls as [|l ls IH]; intros s p Hn; cbn [foldl fst]; [done|].
  apply not_elem_of_cons in Hn as [H1 H2].
  rewrite IH by done. apply hiddenView_run_listener. congruence.
Qed.

Lemma hiddenView_initialize s : hiddenView (initialize s) = hiddenView (setupElements s).
Proof.
  unfold initialize, setupTheme. cbv zeta.
  rewrite hiddenView_console_write, hiddenView_set_isInitialized,
    hiddenView_animateIntro.
  change (hiddenView (addEventListener ?t ?ty ?l ?x)) with (hiddenView x).
  rewrite hiddenView_determineInitialTheme, setupEventListeners_wiring,
    setupHoverEffects_unfold.
  by rewrite !hiddenView_set_listeners.
Qed.

Lemma hiddenView_setupElements s b :
  getElementById "scrollTopBtn" s = Some b →
  hiddenView (setupElements s) !! b = Some (Some "false").
Proof.
  intros Hb. unfold setupElements. cbn [scrollTopBtn set_elements]. rewrite Hb.
  rewrite setAccessibilityAttributes_alter. unfold hiddenView.
  cbn [dom set_dom set_elements].
  apply getElementById_Some in Hb as (el & Hel & _).
  rewrite list_lookup_fmap, list_lookup_alter_eq, Hel. cbn. f_equal.
  apply lookup_insert_eq.
Qed.

Section HiddenAfterLoad.
Variable page : State.
Hypothesis page_fresh : listeners page = [].

Lemma step_hiddenView a s :
  postLoad a → sameWiring (loaded page) s → hiddenView (step a s) = hiddenView s.
Proof.
  intros Ha Hs. destruct a; cbn [step].
  - rewrite init_after_load; [done|]. destruct Hs as [_ ->].
    by rewrite (loaded_initialize page page_fresh), isInitialized_initialize.
  - rewrite dispatchEvent_handlers. apply hiddenView_run_listeners.
    apply (postLoad_handlers page page_fresh); [done|]. intros ->. exact Ha.
  - rewrite dispatchEvent_handlers. cbn [ev_type].
    rewrite (handlers_listeners _ _ s (set_prefersDark dark s)) by done.
    by rewrite hiddenView_run_listeners
      by (by apply (postLoad_handlers page page_fresh)).
  - rewrite dispatchEvent_handlers. cbn [ev_type].
    rewrite (handlers_listeners _ _ s (set_scrollY y s)) by done.
    by rewrite hiddenView_run_listeners
      by (by apply (postLoad_handlers page page_fresh)).
  - case_bool_decide; [|done]. by rewrite hiddenView_toggleScrollButton.
  - by apply hiddenView_update_node.
  - done.
Qed.

Lemma run_hiddenView acts :
  Forall postLoad acts → hiddenView (run acts (loaded page)) = hiddenView (loaded page).
Proof.
  assert (∀ s, Forall postLoad acts → sameWiring (loaded page) s →
               hiddenView (run acts s) = hiddenView s) as H.
  { induction acts as [|a acts IH]; intros s Hf Hs; cbn [run foldl]; [done|].
    apply Forall_cons in Hf as [Ha Hf].
    etrans; [apply IH; [done | by apply step_sameWiring] | by apply step_hiddenView]. }
  intros Hf. apply H; [done | apply sameWiring_refl].
Qed.

End HiddenAfterLoad.

(** X16: on a loaded page the scroll-to-top button carries
    aria-hidden="false", set when the elements are looked up, and nothing
    that happens afterwards changes it: not the scrolling that shows or
    hides the button, nor anything else. *)
Theorem scrollTop_aria_hidden (page : State) (acts : list action) (b : nat) :
  listeners page = [] → Forall postLoad acts →
  getElementById "scrollTopBtn" page = Some b →
  ∃ el, dom (run acts (loaded page)) !! b = Some el
        ∧ el_attrs el !! "aria-hidden" = Some "false".
Proof.
  intros Hl Hacts Hb.
  pose proof (run_hiddenView page Hl acts Hacts) as Hv.
  assert (Hbase : hiddenView (loaded page)
                  = hiddenView (setupElements (new_WindowsHistoryApp page)))
    by (rewrite (loaded_initialize page Hl); apply hiddenView_initialize).
  rewrite Hbase in Hv.
  pose proof (hiddenView_setupElements (new_WindowsHistoryApp page) b) as Hh.
  rewrite getElementById_new in Hh. specialize (Hh Hb).
  rewrite <- Hv in Hh. unfold hiddenView in Hh.
  rewrite list_lookup_fmap in Hh.
  destruct (dom (run acts (loaded page)) !! b) as [el|]; [|done].
  exists el. split; [done|]. by injection Hh.
Qed.

Lemma scrollTop_aria_hidden_witness :
  ∃ el, dom (run [Scroll 0; Timeout 4] (loaded examplePage)) !! 9 = Some el
        ∧ el_attrs el !! "aria-hidden" = Some "false".
Proof.
  apply (scrollTop_aria_hidden examplePage [Scroll 0; Timeout 4] 9);
    [reflexivity | by repeat constructor | vm_compute; reflexivity].
Defined.
